(** * PIX payload generator: a shallow embedding of [pix_generator.py]

    The payload engine of the repository is three Python functions:
    [calculate_crc16], [format_cpf] and [generate_pix_payload].  They are
    embedded here as Rocq functions over Python's data:

    - a [str] is the list of its Unicode code points, a [bytes] value the
      list of its bytes, both as [Z];
    - a Python exception is a [Raise] result of a small error monad;
    - the amount is a Python [int], [float] (IEEE 754 binary64, as
      [spec_float]) or, for the non-numeric case, a [str].

    The specification calls [calculate_crc16] "compute_checksum" and
    [generate_pix_payload] "build_payload". *)

From Stdlib Require Import String Ascii.
From Stdlib Require Import ZArith List Lia Bool.
From Stdlib Require Import SpecFloat.
Import ListNotations.

Local Open Scope Z_scope.

(** ** Python values *)

(** A Python [str]: its code points, each in [0, 0x110000). *)
Definition pystr := list Z.

(** A Python [bytes] object: its bytes, each in [0, 256). *)
Definition pybytes := list Z.

(** An ASCII literal of the source, as a [pystr]. *)
Definition lit (s : string) : pystr :=
  map (fun a => Z.of_N (N_of_ascii a)) (list_ascii_of_string s).

Definition len (s : list Z) : Z := Z.of_nat (length s).

(** The exceptions the three functions can raise. *)
Inductive pyexn : Set :=
| TypeError
| ValueError
| OverflowError
| UnicodeEncodeError.

Inductive result (A : Type) : Type :=
| Ok (a : A)
| Raise (e : pyexn).

Arguments Ok {A} a.
Arguments Raise {A} e.

Definition bind {A B : Type} (r : result A) (k : A -> result B) : result B :=
  match r with
  | Ok a => k a
  | Raise e => Raise e
  end.

Definition result_map {A B : Type} (f : A -> B) (r : result A) : result B :=
  bind r (fun a => Ok (f a)).

Notation "x <- r ;; k" := (bind r (fun x => k))
  (at level 61, r at next level, right associativity).

(** The amount argument: [int], [float], or a non-numeric [str]. *)
Inductive pyval : Type :=
| PyInt (z : Z)
| PyFloat (x : spec_float)
| PyStr (s : pystr).

(** ** [str.encode('utf-8')]

    One to four bytes per code point; the surrogates U+D800 to U+DFFF
    cannot be encoded and raise [UnicodeEncodeError].  The function is
    written on all of [Z]; a [str] only holds code points below
    [0x110000]. *)

Definition is_surrogate (c : Z) : bool := (0xD800 <=? c) && (c <=? 0xDFFF).

Definition utf8_char (c : Z) : result pybytes :=
  if c <? 0x80 then Ok [c]
  else if c <? 0x800 then
    Ok [Z.lor 0xC0 (Z.shiftr c 6); Z.lor 0x80 (Z.land c 0x3F)]
  else if c <? 0x10000 then
    if is_surrogate c then Raise UnicodeEncodeError
    else Ok [Z.lor 0xE0 (Z.shiftr c 12);
             Z.lor 0x80 (Z.land (Z.shiftr c 6) 0x3F);
             Z.lor 0x80 (Z.land c 0x3F)]
  else
    Ok [Z.lor 0xF0 (Z.shiftr c 18);
        Z.lor 0x80 (Z.land (Z.shiftr c 12) 0x3F);
        Z.lor 0x80 (Z.land (Z.shiftr c 6) 0x3F);
        Z.lor 0x80 (Z.land c 0x3F)].

Fixpoint encode_utf8 (s : pystr) : result pybytes :=
  match s with
  | [] => Ok []
  | c :: s' =>
      b <- utf8_char c ;;
      bs <- encode_utf8 s' ;;
      Ok (b ++ bs)
  end.

(** ** Integer formatting: [f"{n:02d}"] and [f"{n:04X}"] for [n >= 0] *)

Fixpoint digits_fuel (base : Z) (digit : Z -> Z) (fuel : nat) (n : Z) : pystr :=
  match fuel with
  | O => []
  | S f =>
      if n <? base then [digit n]
      else digits_fuel base digit f (n / base) ++ [digit (n mod base)]
  end.

(** Every division by [base >= 2] removes a bit, so [1 + log2 n] steps
    are enough. *)
Definition int_digits (base : Z) (digit : Z -> Z) (n : Z) : pystr :=
  digits_fuel base digit (S (Z.to_nat (Z.log2 n))) n.

Definition dec_digit (d : Z) : Z := 48 + d.

Definition hex_digit_upper (d : Z) : Z := if d <? 10 then 48 + d else 55 + d.

(** Left padding with ['0'] up to a minimum width. *)
Definition zfill (width : nat) (s : pystr) : pystr :=
  repeat 48 (width - length s) ++ s.

(** [f"{n:0<width>d}"] *)
Definition format_d (width : nat) (n : Z) : pystr :=
  zfill width (int_digits 10 dec_digit n).

(** [f"{n:0<width>X}"] *)
Definition format_X (width : nat) (n : Z) : pystr :=
  zfill width (int_digits 16 hex_digit_upper n).

(** ** Float formatting: [f"{x:.2f}"] *)

(** [num / den] rounded to the nearest integer, ties to even
    ([num >= 0], [den > 0]). *)
Definition round_half_even (num den : Z) : Z :=
  let q := num / den in
  let r := num mod den in
  match 2 * r ?= den with
  | Lt => q
  | Gt => q + 1
  | Eq => if Z.even q then q else q + 1
  end.

(** The hundredths of [m * 2^e], correctly rounded. *)
Definition cents (m : positive) (e : Z) : Z :=
  if 0 <=? e then Z.pos m * 2 ^ e * 100
  else round_half_even (Z.pos m * 100) (2 ^ (- e)).

Definition format_fixed2 (c : Z) : pystr :=
  int_digits 10 dec_digit (c / 100) ++ lit "." ++ format_d 2 (c mod 100).

Definition sign_str (s : bool) : pystr := if s then lit "-" else [].

Definition format_2f (x : spec_float) : pystr :=
  match x with
  | S754_nan => lit "nan"
  | S754_infinity s => sign_str s ++ lit "inf"
  | S754_zero s => sign_str s ++ lit "0.00"
  | S754_finite s m e => sign_str s ++ format_fixed2 (cents m e)
  end.

(** [float(z)] for a Python [int]: round to nearest even in binary64,
    [OverflowError] beyond the finite range. *)
Definition float_of_int (z : Z) : result spec_float :=
  match binary_normalize 53 1024 z 0 false with
  | S754_infinity _ => Raise OverflowError
  | x => Ok x
  end.

(** [amount > 0] *)
Definition gt_zero (amount : pyval) : result bool :=
  match amount with
  | PyInt z => Ok (0 <? z)
  | PyFloat x => Ok (SFltb (S754_zero false) x)
  | PyStr _ => Raise TypeError
  end.

(** [f"{amount:.2f}"]: an [int] is converted to [float] first. *)
Definition format_amount (amount : pyval) : result pystr :=
  match amount with
  | PyInt z => x <- float_of_int z ;; Ok (format_2f x)
  | PyFloat x => Ok (format_2f x)
  | PyStr _ => Raise ValueError
  end.

(** ** [str.isdigit]

    True on the code points whose Unicode property Numeric_Type is
    Decimal or Digit.  The table is the one of Unicode 14.0 (CPython 3.11),
    as inclusive ranges; the ASCII digits and the superscripts U+00B2,
    U+00B3, U+00B9 have been in it in every Python 3 release. *)
Definition isdigit_ranges : list (Z * Z) :=
  [(48, 57); (178, 179); (185, 185); (1632, 1641); (1776, 1785);
   (1984, 1993); (2406, 2415); (2534, 2543); (2662, 2671); (2790, 2799);
   (2918, 2927); (3046, 3055); (3174, 3183); (3302, 3311); (3430, 3439);
   (3558, 3567); (3664, 3673); (3792, 3801); (3872, 3881); (4160, 4169);
   (4240, 4249); (4969, 4977); (6112, 6121); (6160, 6169); (6470, 6479);
   (6608, 6618); (6784, 6793); (6800, 6809); (6992, 7001); (7088, 7097);
   (7232, 7241); (7248, 7257); (8304, 8304); (8308, 8313); (8320, 8329);
   (9312, 9320); (9332, 9340); (9352, 9360); (9450, 9450); (9461, 9469);
   (9471, 9471); (10102, 10110); (10112, 10120); (10122, 10130);
   (42528, 42537); (43216, 43225); (43264, 43273); (43472, 43481);
   (43504, 43513); (43600, 43609); (44016, 44025); (65296, 65305);
   (66720, 66729); (68160, 68163); (68912, 68921); (69216, 69224);
   (69714, 69722); (69734, 69743); (69872, 69881); (69942, 69951);
   (70096, 70105); (70384, 70393); (70736, 70745); (70864, 70873);
   (71248, 71257); (71360, 71369); (71472, 71481); (71904, 71913);
   (72016, 72025); (72784, 72793); (73040, 73049); (73120, 73129);
   (92768, 92777); (92864, 92873); (93008, 93017); (120782, 120831);
   (123200, 123209); (123632, 123641); (125264, 125273); (127232, 127242);
   (130032, 130041)].

Definition str_isdigit (c : Z) : bool :=
  existsb (fun r => (fst r <=? c) && (c <=? snd r)) isdigit_ranges.

(** ** The source functions *)

Module Pix.

(** One turn of the inner loop of [crc16_ccitt]. *)
Definition crc_shift (crc : Z) : Z :=
  let crc :=
    if Z.land crc 0x8000 =? 0 then Z.shiftl crc 1
    else Z.lxor (Z.shiftl crc 1) 0x1021 in
  Z.land crc 0xFFFF.

(** The body of the outer loop, for one byte. *)
Definition crc_byte (crc byte : Z) : Z :=
  let crc := Z.lxor crc (Z.shiftl byte 8) in
  Nat.iter 8 crc_shift crc.

Definition crc16_ccitt (data : pystr) : result Z :=
  bs <- encode_utf8 data ;;
  Ok (fold_left crc_byte bs 0xFFFF).

Definition calculate_crc16 (payload : pystr) : result Z :=
  crc16_ccitt payload.

Definition format_cpf (cpf : pystr) : pystr :=
  filter str_isdigit cpf.

Definition gui : pystr := lit "0014BR.GOV.BCB.PIX".

Definition key_field (cpf_formatted : pystr) : pystr :=
  lit "01" ++ format_d 2 (len cpf_formatted) ++ cpf_formatted.

(** [if description:] is the test for a non-empty string. *)
Definition desc_field (description : pystr) : pystr :=
  match description with
  | [] => []
  | _ :: _ =>
      let description_clean := firstn 25 description in
      lit "02" ++ format_d 2 (len description_clean) ++ description_clean
  end.

Definition merchant_info (cpf_formatted description : pystr) : pystr :=
  gui ++ key_field cpf_formatted ++ desc_field description.

(** The text the [if amount > 0:] block appends. *)
Definition amount_field (amount : pyval) : result pystr :=
  positive <- gt_zero amount ;;
  if (positive : bool) then
    amount_str <- format_amount amount ;;
    Ok (lit "54" ++ format_d 2 (len amount_str) ++ amount_str)
  else Ok [].

Definition additional_data : pystr := lit "0503***".

Definition generate_pix_payload
    (cpf : pystr) (amount : pyval)
    (description merchant_name merchant_city : pystr) : result pystr :=
  let cpf_formatted := format_cpf cpf in
  let payload := lit "00020" in
  let payload := payload ++ lit "126" in
  let merchant_info := merchant_info cpf_formatted description in
  let payload := payload ++ format_d 2 (len merchant_info) ++ merchant_info in
  let payload := payload ++ lit "52040000" in
  let payload := payload ++ lit "5303986" in
  amount_text <- amount_field amount ;;
  let payload := payload ++ amount_text in
  let payload := payload ++ lit "5802BR" in
  let merchant_name_clean := firstn 25 merchant_name in
  let payload :=
    payload ++ lit "59" ++ format_d 2 (len merchant_name_clean)
            ++ merchant_name_clean in
  let merchant_city_clean := firstn 15 merchant_city in
  let payload :=
    payload ++ lit "60" ++ format_d 2 (len merchant_city_clean)
            ++ merchant_city_clean in
  let payload :=
    payload ++ lit "62" ++ format_d 2 (len additional_data)
            ++ additional_data in
  let payload := payload ++ lit "6304" in
  crc <- calculate_crc16 payload ;;
  Ok (payload ++ format_X 4 crc).

(** The default arguments of [generate_pix_payload]. *)
Definition default_description : pystr := lit "Presente de Casamento".
Definition default_merchant_name : pystr := lit "Lista de Presentes".
Definition default_merchant_city : pystr := lit "SAO PAULO".

End Pix.

Import Pix.

(** ** The TLV grammar of the specification

    A field is a two-character tag, a length of exactly two decimal digits
    and as many units of value as the length says.  The reader works on any
    sequence of units: applied to the code points of a payload it counts
    the length in characters, applied to its UTF-8 bytes it counts bytes,
    the way a receiving terminal does. *)
Module Tlv.

Definition field : Type := pystr * pystr.

Definition tag (f : field) : pystr := fst f.
Definition value (f : field) : pystr := snd f.

(** [tag ++ length ++ value], the length being the number of units of the
    value in the [:02d] format of the source. *)
Definition render_field (f : field) : pystr :=
  tag f ++ format_d 2 (len (value f)) ++ value f.

Definition render (fs : list field) : pystr := flat_map render_field fs.

Definition digit_val (c : Z) : option Z :=
  if (48 <=? c) && (c <=? 57) then Some (c - 48) else None.

Definition read_field (s : list Z) : option (field * list Z) :=
  match s with
  | t1 :: t2 :: l1 :: l2 :: rest =>
      match digit_val l1, digit_val l2 with
      | Some a, Some b =>
          let n := Z.to_nat (10 * a + b) in
          if (n <=? length rest)%nat
          then Some (([t1; t2], firstn n rest), skipn n rest)
          else None
      | _, _ => None
      end
  | _ => None
  end.

Fixpoint read_fields_fuel (fuel : nat) (s : list Z) : option (list field) :=
  match s with
  | [] => Some []
  | _ :: _ =>
      match fuel with
      | O => None
      | S fuel' =>
          match read_field s with
          | Some (f, rest) =>
              option_map (cons f) (read_fields_fuel fuel' rest)
          | None => None
          end
      end
  end.

(** Each field consumes at least four units. *)
Definition read_fields (s : list Z) : option (list field) :=
  read_fields_fuel (length s) s.

Definition has_tag (t : pystr) (fs : list field) : Prop :=
  exists v, In (t, v) fs.

End Tlv.

(** ** The fields [generate_pix_payload] emits *)

(** The amount step as a value: [Some] of the formatted amount when the
    [if amount > 0:] block runs. *)
Definition amount_value (amount : pyval) : result (option pystr) :=
  positive <- gt_zero amount ;;
  if (positive : bool) then
    amount_str <- format_amount amount ;; Ok (Some amount_str)
  else Ok None.

Definition amount_fields (amount_str : option pystr) : list Tlv.field :=
  match amount_str with
  | Some s => [(lit "54", s)]
  | None => []
  end.

Definition description_fields (description : pystr) : list Tlv.field :=
  match description with
  | [] => []
  | _ :: _ => [(lit "02", firstn 25 description)]
  end.

(** The sub-fields of the merchant-account-information group. *)
Definition account_fields (cpf_formatted description : pystr)
  : list Tlv.field :=
  [(lit "00", lit "BR.GOV.BCB.PIX"); (lit "01", cpf_formatted)]
    ++ description_fields description.

(** The top-level fields, in the order of emission. *)
Definition top_fields (merchant_info : pystr) (amount_str : option pystr)
    (merchant_name_clean merchant_city_clean crc_hex : pystr)
  : list Tlv.field :=
  [(lit "00", lit "01"); (lit "26", merchant_info);
   (lit "52", lit "0000"); (lit "53", lit "986")]
    ++ amount_fields amount_str
    ++ [(lit "58", lit "BR"); (lit "59", merchant_name_clean);
        (lit "60", merchant_city_clean); (lit "62", additional_data);
        (lit "63", crc_hex)].

(** ** CRC16/CCITT-FALSE, in the words of the specification

    A 16-bit register, initially [0xFFFF]; each byte is XORed into the high
    eight bits, then eight times: shift left by one, XOR with [0x1021] when
    the top bit was set; the register stays on 16 bits; no final XOR. *)
Module CcittFalse.

Definition shift_step (r : Z) : Z :=
  let shifted := (2 * r) mod 2 ^ 16 in
  if Z.testbit r 15 then Z.lxor shifted 0x1021 else shifted.

Definition feed (r b : Z) : Z :=
  Nat.iter 8 shift_step (Z.lxor r (b * 2 ^ 8)).

Definition crc16 (bs : pybytes) : Z := fold_left feed bs 0xFFFF.

End CcittFalse.

(** ** Reading a hexadecimal number, [int(s, 16)] *)

Definition hex_val (c : Z) : option Z :=
  if (48 <=? c) && (c <=? 57) then Some (c - 48)
  else if (65 <=? c) && (c <=? 70) then Some (c - 55)
  else if (97 <=? c) && (c <=? 102) then Some (c - 87)
  else None.

Fixpoint int_of_hex_acc (acc : Z) (s : pystr) : option Z :=
  match s with
  | [] => Some acc
  | c :: s' =>
      match hex_val c with
      | Some v => int_of_hex_acc (16 * acc + v) s'
      | None => None
      end
  end.

Definition int_of_hex (s : pystr) : option Z :=
  match s with
  | [] => None
  | _ :: _ => int_of_hex_acc 0 s
  end.

(** ** Predicates on strings *)

Definition is_dec (c : Z) : Prop := 48 <= c <= 57.

Definition is_upper_hex (c : Z) : Prop := 48 <= c <= 57 \/ 65 <= c <= 70.

Definition is_ascii (s : pystr) : Prop := Forall (fun c => 0 <= c < 128) s.

(** The strings [str.encode('utf-8')] accepts: no surrogate code point. *)
Definition encodable (s : pystr) : Prop :=
  Forall (fun c => is_surrogate c = false) s.

Fixpoint starts_with (p s : list Z) : bool :=
  match p, s with
  | [], _ => true
  | _ :: _, [] => false
  | a :: p', b :: s' => (a =? b) && starts_with p' s'
  end.

Fixpoint has_infix (p s : list Z) : bool :=
  starts_with p s
  || match s with
     | [] => false
     | _ :: s' => has_infix p s'
     end.

(** A decimal numeral with exactly two digits after the point. *)
Definition two_decimals (s : pystr) : Prop :=
  exists ip d1 d2,
    s = ip ++ [46; d1; d2] /\ ip <> [] /\ Forall is_dec ip
    /\ is_dec d1 /\ is_dec d2.


(** ** Lengths that fit in two digits *)

Definition well_sized (f : Tlv.field) : Prop :=
  length (Tlv.tag f) = 2%nat /\ (length (Tlv.value f) < 100)%nat.

Definition amount_fits (amount : pyval) : bool :=
  match amount_value amount with
  | Ok (Some s) => (length s <? 100)%nat
  | _ => true
  end.

(** The merchant-account-information group and the formatted amount have
    fewer than 100 characters; the other values are short by construction.
    With the default or any shorter description this holds for every key
    of up to 48 digits. *)
Definition fits (cpf : pystr) (amount : pyval) (description : pystr) : bool :=
  (length (merchant_info (format_cpf cpf) description) <? 100)%nat
  && amount_fits amount.

(** The ASCII digits ['0'] to ['9']. *)
Definition ascii_digit (c : Z) : bool := (48 <=? c) && (c <=? 57).

(** ** Sample inputs *)

(** [250.0] as a binary64 float. *)
Definition float_250 : spec_float := S754_finite false 8796093022208000 (-45).


(** The arguments of the [__main__] block. *)
Definition sample_cpf : pystr := lit "13113497663".
Definition sample_item : pystr := lit "Air Fryer".

(** The payload of the [__main__] block. *)
Definition sample_payload : pystr :=
  lit ("00020126460014BR.GOV.BCB.PIX0111131134976630209Air Fryer"
       ++ "5204000053039865406250.005802BR5918Lista de Presentes"
       ++ "6009SAO PAULO62070503***6304EDF6").

(** A merchant name with a two-byte character, ["é"] (U+00E9), and the
    payload it gives with the sample key, no amount, no description and
    the city ["SP"]. *)
Definition accented_name : pystr := [233].

Definition accented_payload : pystr :=
  lit ("00020126330014BR.GOV.BCB.PIX011113113497663"
       ++ "5204000053039865802BR5901")
    ++ accented_name ++ lit "6002SP62070503***6304DD5C".

(** A key of 100 digits, and the payload it gives with no amount and empty
    display strings. *)
Definition long_cpf : pystr := repeat 49 100.

Definition long_key_payload : pystr :=
  lit "000201261230014BR.GOV.BCB.PIX01100" ++ long_cpf
    ++ lit "5204000053039865802BR5900600062070503***63042ABA".


Definition ascii_field (f : Tlv.field) : Prop :=
  is_ascii (Tlv.tag f) /\ is_ascii (Tlv.value f).

(** Display strings of 40, 30 and 20 characters, and the payload they
    give with the sample key and amount. *)
Definition long_description : pystr :=
  lit "A description of forty characters, yes!!".
Definition long_name : pystr := lit "A merchant name of thirty char".
Definition long_city : pystr := lit "A city of twenty ch.".

Definition truncated_payload : pystr :=
  lit ("00020126620014BR.GOV.BCB.PIX011113113497663"
       ++ "0225A description of forty ch"
       ++ "5204000053039865406250.005802BR"
       ++ "5925A merchant name of thirty"
       ++ "6015A city of twent62070503***63048048").

(** The payload for the sample key with no amount and empty description,
    name and city. *)
Definition bare_payload : pystr :=
  lit ("00020126330014BR.GOV.BCB.PIX011113113497663"
       ++ "5204000053039865802BR5900600062070503***630475DF").

Definition encodable_field (f : Tlv.field) : Prop :=
  encodable (Tlv.tag f) /\ encodable (Tlv.value f).

(** ** [base64.b64encode]

    The standard alphabet of RFC 4648 with ['='] padding: three bytes give
    four characters of six bits each. *)
Definition b64_char (i : Z) : Z :=
  if i <? 26 then 65 + i
  else if i <? 52 then 71 + i
  else if i <? 62 then i - 4
  else if i =? 62 then 43
  else 47.

Fixpoint b64encode (bs : pybytes) : pybytes :=
  match bs with
  | [] => []
  | [a] => [b64_char (a / 4); b64_char (a mod 4 * 16); 61; 61]
  | [a; b] =>
      [b64_char (a / 4); b64_char (a mod 4 * 16 + b / 16);
       b64_char (b mod 16 * 4); 61]
  | a :: b :: c :: rest =>
      [b64_char (a / 4); b64_char (a mod 4 * 16 + b / 16);
       b64_char (b mod 16 * 4 + c / 64); b64_char (c mod 64)]
        ++ b64encode rest
  end.

(** Reading base64 text back, group by group; padding is accepted in the
    last group only. *)
Definition b64_index (c : Z) : option Z :=
  if (65 <=? c) && (c <=? 90) then Some (c - 65)
  else if (97 <=? c) && (c <=? 122) then Some (c - 71)
  else if (48 <=? c) && (c <=? 57) then Some (c + 4)
  else if c =? 43 then Some 62
  else if c =? 47 then Some 63
  else None.

Fixpoint b64decode (s : list Z) : option pybytes :=
  match s with
  | [] => Some []
  | c0 :: c1 :: c2 :: c3 :: rest =>
      match b64_index c0, b64_index c1 with
      | Some i0, Some i1 =>
          let b0 := i0 * 4 + i1 / 16 in
          if c2 =? 61 then
            match rest with
            | [] => if c3 =? 61 then Some [b0] else None
            | _ :: _ => None
            end
          else
            match b64_index c2 with
            | Some i2 =>
                let b1 := i1 mod 16 * 16 + i2 / 4 in
                if c3 =? 61 then
                  match rest with
                  | [] => Some [b0; b1]
                  | _ :: _ => None
                  end
                else
                  match b64_index c3, b64decode rest with
                  | Some i3, Some bs =>
                      Some (b0 :: b1 :: (i2 mod 4 * 64 + i3) :: bs)
                  | _, _ => None
                  end
            | None => None
            end
      | _, _ => None
      end
  | _ => None
  end.

Definition is_byte (b : Z) : Prop := 0 <= b < 256.

(** ** The QR code and the bundle of [generate_pix_data]

    The image comes from the [qrcode] library, which is not part of the
    repository: [qr_png payload] stands for the bytes that
    [generate_qr_code_base64] finds in its buffer after [img.save], or for
    the exception the library raised on the way. *)
Inductive outcome (E A : Type) : Type :=
| Returned (a : A)
| Failed (e : E).

Arguments Returned {E A} a.
Arguments Failed {E A} e.

(** A Python [dict] with [str] keys, in insertion order. *)
Definition dict : Type := list (string * pyval).

Fixpoint dict_get (key : string) (d : dict) : option pyval :=
  match d with
  | [] => None
  | (k, v) :: d' => if String.eqb key k then Some v else dict_get key d'
  end.

Definition data_uri_prefix : pystr := lit "data:image/png;base64,".

Section QrCode.

Variable qr_error : Type.
Variable qr_png : pystr -> outcome qr_error pybytes.

Definition generate_qr_code_base64 (payload : pystr)
  : outcome qr_error pystr :=
  match qr_png payload with
  | Returned png =>
      let img_str := b64encode png in
      Returned (data_uri_prefix ++ img_str)
  | Failed e => Failed e
  end.

Definition generate_pix_data (cpf : pystr) (amount : pyval)
    (item_name : pystr) : outcome (pyexn + qr_error) dict :=
  match generate_pix_payload cpf amount item_name
          default_merchant_name default_merchant_city with
  | Raise e => Failed (inl e)
  | Ok payload =>
      match generate_qr_code_base64 payload with
      | Failed e => Failed (inr e)
      | Returned qr_base64 =>
          Returned [("payload"%string, PyStr payload);
                    ("qr_code"%string, PyStr qr_base64);
                    ("amount"%string, amount);
                    ("cpf"%string, PyStr cpf);
                    ("item_name"%string, PyStr item_name)]
      end
  end.

End QrCode.

Arguments generate_qr_code_base64 {qr_error} qr_png payload.
Arguments generate_pix_data {qr_error} qr_png cpf amount item_name.

(** A stand-in for the library in examples: every payload gives the
    eight bytes of the PNG signature. *)
Definition png_signature : pybytes := [137; 80; 78; 71; 13; 10; 26; 10].

Definition constant_png (payload : pystr) : outcome Empty_set pybytes :=
  Returned png_signature.

(** The dictionary for the sample key written with punctuation, with the
    stand-in image. *)
Definition sample_bundle : dict :=
  [("payload"%string, PyStr sample_payload);
   ("qr_code"%string, PyStr (lit "data:image/png;base64,iVBORw0KGgo="));
   ("amount"%string, PyFloat float_250);
   ("cpf"%string, PyStr (lit "131.134.976-63"));
   ("item_name"%string, PyStr sample_item)].

(** A key with the superscript two between two digits, ["1²2"], and the
    payload it gives with no amount and empty display strings. *)
Definition superscript_key : pystr := [49; 178; 50].

Definition superscript_payload : pystr :=
  lit "00020126250014BR.GOV.BCB.PIX0103" ++ superscript_key
    ++ lit "5204000053039865802BR5900600062070503***63049195".

Ltac zdiv := Z.div_mod_to_equations; lia.

(** Refutes an equation between fields whose tags differ. *)
Ltac other_tag H :=
  apply (f_equal fst) in H; vm_compute in H; discriminate H.


(** * Properties *)

(** ** Results *)

Lemma bind_Ok {A B} (r : result A) (k : A -> result B) (b : B) :
  bind r k = Ok b -> exists a, r = Ok a /\ k a = Ok b.
Proof. destruct r as [a|e]; simpl; [eauto | discriminate]. Qed.

(** ** Integer formatting *)

Lemma digits_fuel_S base digit f n :
  digits_fuel base digit (S f) n =
  if n <? base then [digit n]
  else digits_fuel base digit f (n / base) ++ [digit (n mod base)].
Proof. reflexivity. Qed.

Lemma digits_fuel_enough base digit :
  2 <= base ->
  forall f f' n, (f <= f')%nat -> 0 <= n < 2 ^ (Z.of_nat f + 1) ->
    digits_fuel base digit (S f') n = digits_fuel base digit (S f) n.
Proof.
  intros Hb. induction f as [|f IH]; intros f' n Hle Hn.
  - rewrite !digits_fuel_S.
    change (2 ^ (Z.of_nat 0 + 1)) with 2 in Hn.
    destruct (Z.ltb_spec n base); [reflexivity | lia].
  - rewrite (digits_fuel_S _ _ f'), (digits_fuel_S _ _ (S f)).
    destruct (Z.ltb_spec n base) as [|Hge]; [reflexivity|].
    destruct f' as [|f']; [lia|].
    rewrite (IH f' (n / base)); [reflexivity | lia |].
    split; [apply Z.div_pos; lia|].
    apply Z.div_lt_upper_bound; [lia|].
    replace (Z.of_nat (S f) + 1) with (Z.succ (Z.of_nat f + 1)) in Hn by lia.
    rewrite Z.pow_succ_r in Hn by lia.
    assert (0 < 2 ^ (Z.of_nat f + 1)) by (apply Z.pow_pos_nonneg; lia).
    nia.
Qed.

Lemma int_digits_eq base digit n :
  2 <= base -> 0 <= n ->
  int_digits base digit n =
  if n <? base then [digit n]
  else int_digits base digit (n / base) ++ [digit (n mod base)].
Proof.
  intros Hb Hn. unfold int_digits at 1. rewrite digits_fuel_S.
  destruct (Z.ltb_spec n base) as [|Hge]; [reflexivity|].
  f_equal. unfold int_digits.
  assert (Hlog : 0 < Z.log2 n) by (apply Z.log2_pos; lia).
  destruct (Z.to_nat (Z.log2 n)) as [|k] eqn:Hk; [lia|].
  assert (Hq : 0 <= n / base) by (apply Z.div_pos; lia).
  apply digits_fuel_enough; [assumption | |].
  - destruct (Z.eq_dec (n / base) 0) as [->|Hnz]; [simpl; lia|].
    assert (Z.log2 (n / base) < Z.log2 n); [|lia].
    apply Z.log2_lt_pow2; [lia|].
    apply Z.div_lt_upper_bound; [lia|].
    pose proof (Z.log2_spec n ltac:(lia)) as [_ Hup].
    rewrite Z.pow_succ_r in Hup by lia.
    assert (0 < 2 ^ Z.log2 n) by (apply Z.pow_pos_nonneg; lia).
    nia.
  - split; [assumption|].
    destruct (Z.eq_dec (n / base) 0) as [->|Hnz]; [reflexivity|].
    rewrite Z2Nat.id by apply Z.log2_nonneg.
    apply Z.log2_spec. lia.
Qed.

Lemma digits_fuel_dec f n :
  0 <= n -> Forall is_dec (digits_fuel 10 dec_digit f n).
Proof.
  revert n. induction f as [|f IH]; intros n Hn; [constructor|].
  rewrite digits_fuel_S. unfold is_dec, dec_digit in *.
  destruct (Z.ltb_spec n 10).
  - repeat constructor; lia.
  - apply Forall_app. split.
    + apply IH. zdiv.
    + repeat constructor; zdiv.
Qed.

Lemma int_digits_dec n : 0 <= n -> Forall is_dec (int_digits 10 dec_digit n).
Proof. apply digits_fuel_dec. Qed.

Lemma int_digits_nonempty base digit n : int_digits base digit n <> [].
Proof.
  unfold int_digits. rewrite digits_fuel_S.
  destruct (n <? base); [discriminate|].
  intros H. apply app_eq_nil in H. destruct H; discriminate.
Qed.

Lemma format_d2_small n :
  0 <= n < 100 -> format_d 2 n = [48 + n / 10; 48 + n mod 10].
Proof.
  intros Hn. unfold format_d.
  rewrite int_digits_eq by lia.
  destruct (Z.ltb_spec n 10).
  - unfold zfill, dec_digit. simpl.
    rewrite Z.div_small, Z.mod_small by lia. reflexivity.
  - rewrite int_digits_eq by zdiv.
    destruct (Z.ltb_spec (n / 10) 10); [reflexivity | zdiv].
Qed.

Lemma format_d2_length n :
  0 <= n < 100 -> length (format_d 2 n) = 2%nat.
Proof. intros Hn. rewrite format_d2_small by assumption. reflexivity. Qed.

Lemma zfill_ge width s : (width <= length s)%nat -> zfill width s = s.
Proof.
  intros H. unfold zfill.
  replace (width - length s)%nat with 0%nat by lia. reflexivity.
Qed.

Lemma int_digits_length_100 n :
  100 <= n -> (3 <= length (int_digits 10 dec_digit n))%nat.
Proof.
  intros Hn.
  rewrite int_digits_eq by lia.
  destruct (Z.ltb_spec n 10); [lia|].
  rewrite int_digits_eq by zdiv.
  destruct (Z.ltb_spec (n / 10) 10); [zdiv|].
  rewrite !length_app. simpl.
  pose proof (int_digits_nonempty 10 dec_digit (n / 10 / 10)) as Hne.
  destruct (int_digits 10 dec_digit (n / 10 / 10)); [congruence | simpl; lia].
Qed.

(** Beyond 99 the [:02d] format does not truncate: the length is written
    with all its digits. *)
Lemma format_d2_large n :
  100 <= n ->
  format_d 2 n = int_digits 10 dec_digit n /\ (3 <= length (format_d 2 n))%nat.
Proof.
  intros Hn. pose proof (int_digits_length_100 n Hn).
  unfold format_d. rewrite zfill_ge by lia. split; [reflexivity | assumption].
Qed.

Lemma format_d2_dec n : 0 <= n -> Forall is_dec (format_d 2 n).
Proof.
  intros Hn. unfold format_d, zfill. apply Forall_app. split.
  - apply Forall_forall. intros x Hx. apply repeat_spec in Hx. subst.
    unfold is_dec. lia.
  - apply int_digits_dec. assumption.
Qed.

(** ** Hexadecimal formatting *)

Lemma format_X4_digits c :
  0 <= c < 65536 ->
  format_X 4 c =
  [hex_digit_upper (c / 4096); hex_digit_upper (c / 256 mod 16);
   hex_digit_upper (c / 16 mod 16); hex_digit_upper (c mod 16)].
Proof.
  intros Hc. unfold format_X.
  assert (E0 : forall x, 0 <= x < 16 -> x = 0 -> hex_digit_upper x = 48)
    by (intros x _ ->; reflexivity).
  rewrite int_digits_eq by lia.
  destruct (Z.ltb_spec c 16).
  { unfold zfill; simpl.
    rewrite (Z.div_small c 4096), (Z.div_small c 256), (Z.div_small c 16),
      (Z.mod_small c 16) by lia. reflexivity. }
  rewrite int_digits_eq by zdiv.
  destruct (Z.ltb_spec (c / 16) 16).
  { unfold zfill; simpl.
    rewrite (Z.div_small c 4096), (Z.div_small c 256) by zdiv.
    rewrite (Z.mod_small (c / 16) 16) by zdiv. reflexivity. }
  rewrite int_digits_eq by zdiv.
  assert (D2 : c / 16 / 16 = c / 256) by (rewrite Z.div_div by lia; reflexivity).
  assert (D3 : c / 256 / 16 = c / 4096) by (rewrite Z.div_div by lia; reflexivity).
  rewrite D2.
  destruct (Z.ltb_spec (c / 256) 16).
  { unfold zfill; simpl.
    rewrite (Z.div_small c 4096) by zdiv.
    rewrite (Z.mod_small (c / 256) 16) by zdiv. reflexivity. }
  rewrite int_digits_eq by zdiv. rewrite D3.
  destruct (Z.ltb_spec (c / 4096) 16); [|zdiv].
  unfold zfill; simpl. reflexivity.
Qed.

Lemma hex_val_upper d :
  0 <= d < 16 -> hex_val (hex_digit_upper d) = Some d.
Proof.
  intros Hd. unfold hex_val, hex_digit_upper.
  destruct (Z.ltb_spec d 10).
  - replace ((48 <=? 48 + d) && (48 + d <=? 57)) with true
      by (symmetry; apply andb_true_iff; lia).
    f_equal. lia.
  - replace ((48 <=? 55 + d) && (55 + d <=? 57)) with false
      by (symmetry; apply andb_false_iff; lia).
    replace ((65 <=? 55 + d) && (55 + d <=? 70)) with true
      by (symmetry; apply andb_true_iff; lia).
    f_equal. lia.
Qed.

Lemma hex_digit_upper_range d :
  0 <= d < 16 -> is_upper_hex (hex_digit_upper d).
Proof.
  intros Hd. unfold is_upper_hex, hex_digit_upper.
  destruct (Z.ltb_spec d 10); lia.
Qed.

Lemma int_of_hex_format_X4 c :
  0 <= c < 65536 -> int_of_hex (format_X 4 c) = Some c.
Proof.
  intros Hc. rewrite format_X4_digits by assumption.
  unfold int_of_hex, int_of_hex_acc.
  rewrite !hex_val_upper by zdiv.
  f_equal. zdiv.
Qed.

Lemma format_X4_upper_hex c :
  0 <= c < 65536 ->
  length (format_X 4 c) = 4%nat /\ Forall is_upper_hex (format_X 4 c).
Proof.
  intros Hc. rewrite format_X4_digits by assumption.
  split; [reflexivity|].
  repeat (apply Forall_cons; [apply hex_digit_upper_range; zdiv|]).
  apply Forall_nil.
Qed.

(** ** The checksum *)

Lemma land_lxor_distr a b m :
  Z.land (Z.lxor a b) m = Z.lxor (Z.land a m) (Z.land b m).
Proof.
  apply Z.bits_inj'. intros n _.
  rewrite Z.lxor_spec, !Z.land_spec, Z.lxor_spec.
  destruct (Z.testbit a n), (Z.testbit b n), (Z.testbit m n); reflexivity.
Qed.

Lemma land_top_bit c :
  (Z.land c 0x8000 =? 0) = negb (Z.testbit c 15).
Proof.
  assert (E : Z.land c 0x8000 = if Z.testbit c 15 then 0x8000 else 0).
  { apply Z.bits_inj'. intros n Hn.
    rewrite Z.land_spec. change 0x8000 with (2 ^ 15).
    rewrite Z.pow2_bits_eqb by lia.
    destruct (Z.eqb_spec 15 n) as [<-|Hne].
    - rewrite andb_true_r.
      destruct (Z.testbit c 15).
      + symmetry. apply Z.pow2_bits_true. lia.
      + symmetry. apply Z.bits_0.
    - rewrite andb_false_r.
      destruct (Z.testbit c 15).
      + symmetry. apply Z.pow2_bits_false; lia.
      + symmetry. apply Z.bits_0. }
  rewrite E. destruct (Z.testbit c 15); reflexivity.
Qed.

Lemma land_16 x : Z.land x 0xFFFF = x mod 2 ^ 16.
Proof. change 0xFFFF with (Z.ones 16). apply Z.land_ones. lia. Qed.

Lemma crc_shift_range c : 0 <= crc_shift c < 65536.
Proof.
  unfold crc_shift. rewrite land_16.
  change 65536 with (2 ^ 16). apply Z.mod_pos_bound. lia.
Qed.

(** One turn of the source's inner loop is one shift step of the
    specification. *)
Lemma crc_shift_spec c : crc_shift c = CcittFalse.shift_step c.
Proof.
  unfold crc_shift, CcittFalse.shift_step.
  rewrite land_top_bit, Z.shiftl_mul_pow2 by lia.
  change (2 ^ 1) with 2. rewrite (Z.mul_comm c 2).
  destruct (Z.testbit c 15); simpl negb; cbv iota.
  - rewrite land_lxor_distr, land_16. reflexivity.
  - apply land_16.
Qed.

Lemma crc_byte_spec c b : crc_byte c b = CcittFalse.feed c b.
Proof.
  unfold crc_byte, CcittFalse.feed.
  rewrite Z.shiftl_mul_pow2 by lia.
  generalize (Z.lxor c (b * 2 ^ 8)). intros r.
  cbn [Nat.iter nat_rect]. rewrite !crc_shift_spec. reflexivity.
Qed.

Lemma crc_byte_range c b : 0 <= crc_byte c b < 65536.
Proof.
  unfold crc_byte. cbn [Nat.iter nat_rect]. apply crc_shift_range.
Qed.

Lemma crc_fold_spec bs :
  forall c, fold_left crc_byte bs c = fold_left CcittFalse.feed bs c.
Proof.
  induction bs as [|b bs IH]; intros c; simpl; [reflexivity|].
  rewrite crc_byte_spec. apply IH.
Qed.

Lemma crc_fold_range bs :
  forall c, 0 <= c < 65536 -> 0 <= fold_left crc_byte bs c < 65536.
Proof.
  induction bs as [|b bs IH]; intros c Hc; simpl; [assumption|].
  apply IH, crc_byte_range.
Qed.

Lemma calculate_crc16_range payload crc :
  calculate_crc16 payload = Ok crc -> 0 <= crc < 65536.
Proof.
  unfold calculate_crc16, crc16_ccitt. intros H.
  apply bind_Ok in H. destruct H as (bs & _ & H).
  injection H as <-. apply crc_fold_range. lia.
Qed.

(** ** Reading back what was rendered *)

Lemma read_field_cons t1 t2 l1 l2 rest :
  Tlv.read_field (t1 :: t2 :: l1 :: l2 :: rest) =
  match Tlv.digit_val l1, Tlv.digit_val l2 with
  | Some a, Some b =>
      let n := Z.to_nat (10 * a + b) in
      if (n <=? length rest)%nat
      then Some (([t1; t2], firstn n rest), skipn n rest)
      else None
  | _, _ => None
  end.
Proof. reflexivity. Qed.

Lemma digit_val_dec d : 0 <= d < 10 -> Tlv.digit_val (48 + d) = Some d.
Proof.
  intros Hd. unfold Tlv.digit_val.
  replace ((48 <=? 48 + d) && (48 + d <=? 57)) with true
    by (symmetry; apply andb_true_iff; lia).
  f_equal. lia.
Qed.

Lemma read_field_render t v rest :
  length t = 2%nat -> (length v < 100)%nat ->
  Tlv.read_field (Tlv.render_field (t, v) ++ rest) = Some ((t, v), rest).
Proof.
  intros Ht Hv.
  destruct t as [|t1 [|t2 [|]]]; try discriminate.
  unfold Tlv.render_field, Tlv.tag, Tlv.value, len. cbn [fst snd].
  rewrite format_d2_small by lia.
  cbn [app]. rewrite read_field_cons.
  rewrite !digit_val_dec by zdiv.
  replace (10 * (Z.of_nat (length v) / 10) + Z.of_nat (length v) mod 10)
    with (Z.of_nat (length v)) by zdiv.
  cbv zeta. rewrite Nat2Z.id.
  replace (length v <=? length (v ++ rest))%nat with true
    by (symmetry; apply Nat.leb_le; rewrite length_app; lia).
  rewrite firstn_app, Nat.sub_diag, firstn_all, firstn_O, app_nil_r.
  rewrite skipn_app, Nat.sub_diag, skipn_all, skipn_O. reflexivity.
Qed.

Lemma read_field_shorter s f rest :
  Tlv.read_field s = Some (f, rest) -> (length rest < length s)%nat.
Proof.
  destruct s as [|t1 [|t2 [|l1 [|l2 r]]]]; try discriminate.
  rewrite read_field_cons.
  destruct (Tlv.digit_val l1); [|discriminate].
  destruct (Tlv.digit_val l2); [|discriminate].
  cbv zeta. destruct (_ <=? _)%nat; [|discriminate].
  intros H. injection H as _ <-.
  rewrite length_skipn. simpl. lia.
Qed.

Lemma read_fields_fuel_enough :
  forall fuel fuel' s,
    (length s <= fuel)%nat -> (length s <= fuel')%nat ->
    Tlv.read_fields_fuel fuel s = Tlv.read_fields_fuel fuel' s.
Proof.
  induction fuel as [|fuel IH]; intros fuel' s H H'.
  - destruct s; [destruct fuel'; reflexivity | simpl in H; lia].
  - destruct s as [|a s]; [destruct fuel'; reflexivity|].
    destruct fuel' as [|fuel']; [simpl in H'; lia|].
    cbn [Tlv.read_fields_fuel].
    destruct (Tlv.read_field (a :: s)) as [[f rest]|] eqn:E; [|reflexivity].
    apply read_field_shorter in E.
    rewrite (IH fuel' rest); [reflexivity | lia | lia].
Qed.

Lemma read_fields_step s f rest :
  Tlv.read_field s = Some (f, rest) ->
  Tlv.read_fields s = option_map (cons f) (Tlv.read_fields rest).
Proof.
  intros E. pose proof (read_field_shorter _ _ _ E) as Hlt.
  unfold Tlv.read_fields.
  destruct s as [|a s]; [discriminate|].
  cbn [length Tlv.read_fields_fuel]. rewrite E.
  rewrite (read_fields_fuel_enough (length s) (length rest) rest);
    [reflexivity | simpl in Hlt; lia | lia].
Qed.

(** A sequence of fields whose values are shorter than 100 units is read
    back from its rendering. *)
Lemma read_fields_render fs :
  Forall well_sized fs -> Tlv.read_fields (Tlv.render fs) = Some fs.
Proof.
  induction 1 as [|[t v] fs [Ht Hv] _ IH]; [reflexivity|].
  change (Tlv.render ((t, v) :: fs))
    with (Tlv.render_field (t, v) ++ Tlv.render fs).
  rewrite (read_fields_step _ (t, v) (Tlv.render fs)).
  - rewrite IH. reflexivity.
  - apply read_field_render; assumption.
Qed.

(** ** The shape of the payload *)

Lemma Ok_inj {A} (a b : A) : Ok a = Ok b -> a = b.
Proof. intros H. injection H as H. exact H. Qed.

Lemma amount_field_value amount text :
  amount_field amount = Ok text ->
  exists amt, amount_value amount = Ok amt
              /\ text = Tlv.render (amount_fields amt).
Proof.
  unfold amount_field, amount_value. intros H.
  destruct (gt_zero amount) as [[|]|e]; simpl in *; try discriminate.
  - destruct (format_amount amount) as [s|e]; simpl in *; try discriminate.
    injection H as <-. exists (Some s). split; [reflexivity|].
    unfold Tlv.render, amount_fields, Tlv.render_field, Tlv.tag, Tlv.value.
    simpl. rewrite app_nil_r. reflexivity.
  - injection H as <-. exists None. split; reflexivity.
Qed.

Lemma render_top_fields mi amt name city crc :
  0 <= crc < 65536 ->
  Tlv.render (top_fields mi amt name city (format_X 4 crc)) =
  lit "00020" ++ lit "126" ++ format_d 2 (len mi) ++ mi
    ++ lit "52040000" ++ lit "5303986"
    ++ Tlv.render (amount_fields amt) ++ lit "5802BR"
    ++ lit "59" ++ format_d 2 (len name) ++ name
    ++ lit "60" ++ format_d 2 (len city) ++ city
    ++ lit "62" ++ format_d 2 (len additional_data) ++ additional_data
    ++ lit "6304" ++ format_X 4 crc.
Proof.
  intros Hc. unfold top_fields, Tlv.render.
  rewrite !flat_map_app. cbn [flat_map].
  unfold Tlv.render_field, Tlv.tag, Tlv.value. cbn [fst snd].
  assert (E : len (format_X 4 crc) = 4)
    by (unfold len; rewrite (proj1 (format_X4_upper_hex crc Hc)); reflexivity).
  rewrite E.
  repeat rewrite <- app_assoc. rewrite app_nil_r.
  generalize (format_d 2 (len mi)) (format_d 2 (len name))
    (format_d 2 (len city)) (format_X 4 crc)
    (flat_map (fun f : Tlv.field => fst f ++ format_d 2 (len (snd f)) ++ snd f)
       (amount_fields amt)).
  intros; vm_compute; reflexivity.
Qed.

Lemma generate_pix_payload_fields cpf amount description name city P :
  generate_pix_payload cpf amount description name city = Ok P ->
  exists amt crc body,
    amount_value amount = Ok amt
    /\ calculate_crc16 (body ++ lit "6304") = Ok crc
    /\ P = body ++ lit "6304" ++ format_X 4 crc
    /\ P = Tlv.render
             (top_fields (merchant_info (format_cpf cpf) description) amt
                (firstn 25 name) (firstn 15 city) (format_X 4 crc)).
Proof.
  unfold generate_pix_payload. cbv zeta. intros H.
  destruct (amount_field amount) as [text|e] eqn:Htext; [|discriminate H].
  cbn [bind] in H.
  match type of H with
  | bind (calculate_crc16 (?b ++ _)) _ = _ =>
      destruct (calculate_crc16 (b ++ lit "6304")) as [crc|e] eqn:Hcrc;
      [|discriminate H]
  end.
  cbn [bind] in H. apply Ok_inj in H. subst P.
  apply amount_field_value in Htext. destruct Htext as (amt & Hamt & ->).
  pose proof (calculate_crc16_range _ _ Hcrc) as Hrange.
  match type of Hcrc with
  | calculate_crc16 (?b ++ _) = _ => exists amt, crc, b
  end.
  split; [exact Hamt|].
  split; [exact Hcrc|].
  split; [symmetry; apply app_assoc|].
  rewrite render_top_fields by assumption.
  repeat rewrite <- app_assoc.
  reflexivity.
Qed.

(** ** Prefixes and infixes *)

Lemma starts_with_app p r : starts_with p (p ++ r) = true.
Proof.
  induction p as [|a p IH]; [reflexivity|].
  simpl. rewrite Z.eqb_refl. exact IH.
Qed.

Lemma starts_with_sound p :
  forall s, starts_with p s = true -> exists r, s = p ++ r.
Proof.
  induction p as [|a p IH]; intros s H; [exists s; reflexivity|].
  destruct s as [|b s]; [discriminate|].
  simpl in H. apply andb_true_iff in H. destruct H as [Hab H].
  apply Z.eqb_eq in Hab. subst b.
  destruct (IH s H) as [r ->]. exists r. reflexivity.
Qed.

Lemma has_infix_start p s : starts_with p s = true -> has_infix p s = true.
Proof. intros H. destruct s; cbn [has_infix]; rewrite H; reflexivity. Qed.

Lemma has_infix_complete p a b : has_infix p (a ++ p ++ b) = true.
Proof.
  induction a as [|x a IH].
  - apply has_infix_start. apply (starts_with_app p b).
  - cbn [app has_infix]. rewrite IH. apply orb_true_r.
Qed.

Lemma has_infix_sound p :
  forall s, has_infix p s = true -> exists a b, s = a ++ p ++ b.
Proof.
  induction s as [|x s IH]; intros H.
  - simpl in H. rewrite orb_false_r in H.
    apply starts_with_sound in H. destruct H as [r Hr].
    exists [], r. exact Hr.
  - cbn [has_infix] in H. apply orb_true_iff in H. destruct H as [H|H].
    + apply starts_with_sound in H. destruct H as [r Hr].
      exists [], r. exact Hr.
    + destruct (IH H) as (a & b & ->). exists (x :: a), b. reflexivity.
Qed.

Lemma render_app fs gs : Tlv.render (fs ++ gs) = Tlv.render fs ++ Tlv.render gs.
Proof. apply flat_map_app. Qed.

(** A field of the sequence is a piece of the rendered text. *)
Lemma has_infix_render f fs :
  In f fs -> has_infix (Tlv.render_field f) (Tlv.render fs) = true.
Proof.
  intros H. apply in_split in H. destruct H as (l1 & l2 & ->).
  rewrite render_app.
  change (Tlv.render (f :: l2)) with (Tlv.render_field f ++ Tlv.render l2).
  apply has_infix_complete.
Qed.

(** ** ASCII text and its encoding *)

Lemma is_ascii_forallb s :
  forallb (fun c => (0 <=? c) && (c <? 128)) s = true -> is_ascii s.
Proof.
  intros H. apply Forall_forall. intros c Hc.
  rewrite forallb_forall in H. specialize (H c Hc).
  apply andb_true_iff in H. lia.
Qed.

Lemma is_ascii_app s t : is_ascii s -> is_ascii t -> is_ascii (s ++ t).
Proof. intros Hs Ht. apply Forall_app. split; assumption. Qed.

Lemma Forall_firstn {A} (P : A -> Prop) n s :
  Forall P s -> Forall P (firstn n s).
Proof.
  intros H. rewrite <- (firstn_skipn n s) in H.
  apply Forall_app in H. apply H.
Qed.

Lemma is_ascii_firstn n s : is_ascii s -> is_ascii (firstn n s).
Proof. apply Forall_firstn. Qed.

Lemma is_ascii_filter p s : is_ascii s -> is_ascii (filter p s).
Proof.
  intros H. apply Forall_forall. intros c Hc.
  apply filter_In in Hc. destruct Hc as [Hc _].
  revert c Hc. apply Forall_forall. exact H.
Qed.

Lemma is_ascii_dec s : Forall is_dec s -> is_ascii s.
Proof. apply Forall_impl. unfold is_dec. intros; lia. Qed.

Lemma is_ascii_upper_hex s : Forall is_upper_hex s -> is_ascii s.
Proof. apply Forall_impl. unfold is_upper_hex. intros; lia. Qed.

Lemma is_ascii_encodable s : is_ascii s -> encodable s.
Proof.
  apply Forall_impl. intros c Hc. unfold is_surrogate.
  apply andb_false_iff. left. apply Z.leb_gt. lia.
Qed.

(** UTF-8 leaves ASCII text as it is: one byte per character. *)
Lemma encode_utf8_ascii s : is_ascii s -> encode_utf8 s = Ok s.
Proof.
  induction 1 as [|c s Hc _ IH]; [reflexivity|].
  cbn [encode_utf8]. unfold utf8_char.
  destruct (Z.ltb_spec c 0x80); [|lia].
  cbn [bind]. rewrite IH. reflexivity.
Qed.

Lemma utf8_char_encodable c :
  is_surrogate c = false -> exists b, utf8_char c = Ok b.
Proof.
  intros H. unfold utf8_char. rewrite H.
  destruct (c <? 0x80); [eauto|].
  destruct (c <? 0x800); [eauto|].
  destruct (c <? 0x10000); eauto.
Qed.

(** [encode] fails on surrogate code points only. *)
Lemma encode_utf8_encodable s : encodable s -> exists bs, encode_utf8 s = Ok bs.
Proof.
  induction 1 as [|c s Hc _ IH]; [exists []; reflexivity|].
  destruct (utf8_char_encodable c Hc) as [b Hb]. destruct IH as [bs Hbs].
  exists (b ++ bs). cbn [encode_utf8]. rewrite Hb, Hbs. reflexivity.
Qed.

Lemma encodable_app s t : encodable s -> encodable t -> encodable (s ++ t).
Proof. intros Hs Ht. apply Forall_app. split; assumption. Qed.

Lemma encodable_firstn n s : encodable s -> encodable (firstn n s).
Proof. apply Forall_firstn. Qed.

(** ** The formatted amount *)

Lemma round_half_even_nonneg num den :
  0 <= num -> 0 < den -> 0 <= round_half_even num den.
Proof.
  intros Hn Hd. unfold round_half_even. cbv zeta.
  assert (0 <= num / den) by (apply Z.div_pos; lia).
  destruct (2 * (num mod den) ?= den); [destruct (Z.even _)| |]; lia.
Qed.

(** The rounding error is at most half a hundredth. *)
Lemma round_half_even_nearest num den :
  0 <= num -> 0 < den ->
  Z.abs (2 * (round_half_even num den * den - num)) <= den.
Proof.
  intros Hn Hd. unfold round_half_even. cbv zeta.
  pose proof (Z.div_mod num den ltac:(lia)) as E.
  pose proof (Z.mod_pos_bound num den Hd) as B.
  destruct (Z.compare_spec (2 * (num mod den)) den);
    [destruct (Z.even _)| |]; nia.
Qed.

Lemma cents_nonneg m e : 0 <= cents m e.
Proof.
  unfold cents. destruct (0 <=? e) eqn:E.
  - apply Z.leb_le in E.
    assert (0 < 2 ^ e) by (apply Z.pow_pos_nonneg; lia). nia.
  - apply Z.leb_gt in E. apply round_half_even_nonneg; [lia|].
    apply Z.pow_pos_nonneg; lia.
Qed.

Lemma format_fixed2_two_decimals c : 0 <= c -> two_decimals (format_fixed2 c).
Proof.
  intros Hc. unfold format_fixed2, two_decimals.
  rewrite format_d2_small by zdiv.
  exists (int_digits 10 dec_digit (c / 100)), (48 + c mod 100 / 10),
    (48 + c mod 100 mod 10).
  split; [reflexivity|]. split; [apply int_digits_nonempty|].
  split; [apply int_digits_dec; zdiv|].
  unfold is_dec. split; zdiv.
Qed.

Lemma two_decimals_ascii s : two_decimals s -> is_ascii s.
Proof.
  intros (ip & d1 & d2 & -> & _ & Hip & H1 & H2).
  apply is_ascii_app; [apply is_ascii_dec; assumption|].
  unfold is_dec in *. repeat (constructor; [lia|]). constructor.
Qed.

Lemma format_2f_ascii x : is_ascii (format_2f x).
Proof.
  destruct x as [s|s| |s m e]; cbn [format_2f].
  - destruct s; apply is_ascii_forallb; reflexivity.
  - destruct s; apply is_ascii_forallb; reflexivity.
  - apply is_ascii_forallb; reflexivity.
  - apply is_ascii_app.
    + destruct s; apply is_ascii_forallb; reflexivity.
    + apply two_decimals_ascii, format_fixed2_two_decimals, cents_nonneg.
Qed.

Lemma format_amount_ascii amount s :
  format_amount amount = Ok s -> is_ascii s.
Proof.
  destruct amount as [z|x|t]; cbn [format_amount]; intros H.
  - apply bind_Ok in H. destruct H as (x & _ & H).
    apply Ok_inj in H. subst s. apply format_2f_ascii.
  - apply Ok_inj in H. subst s. apply format_2f_ascii.
  - discriminate.
Qed.

(** ** The fields of the payload, rendered and read back *)

Lemma merchant_info_render cpf_formatted description :
  merchant_info cpf_formatted description =
  Tlv.render (account_fields cpf_formatted description).
Proof.
  unfold merchant_info, account_fields, gui, key_field, desc_field,
    description_fields, Tlv.render.
  destruct description as [|x d]; cbn [flat_map app];
    unfold Tlv.render_field, Tlv.tag, Tlv.value; cbn [fst snd];
    repeat rewrite <- app_assoc; rewrite ?app_nil_r.
  - generalize (format_d 2 (len cpf_formatted)).
    intros; vm_compute; reflexivity.
  - generalize (format_d 2 (len cpf_formatted))
      (format_d 2 (len (firstn 25 (x :: d)))) (firstn 25 (x :: d)).
    intros; vm_compute; reflexivity.
Qed.

Lemma length_merchant_info cpf_formatted description :
  (length cpf_formatted <= length (merchant_info cpf_formatted description))%nat.
Proof.
  unfold merchant_info, key_field. rewrite !length_app. lia.
Qed.

Lemma account_fields_well_sized cpf_formatted description :
  (length (merchant_info cpf_formatted description) < 100)%nat ->
  Forall well_sized (account_fields cpf_formatted description).
Proof.
  intros H. pose proof (length_merchant_info cpf_formatted description).
  unfold account_fields, description_fields, well_sized.
  repeat (apply Forall_cons; [split; [reflexivity | cbn [Tlv.value snd]]|]).
  - vm_compute. lia.
  - lia.
  - destruct description as [|x d]; [apply Forall_nil|].
    apply Forall_cons; [|apply Forall_nil].
    split; [reflexivity|]. cbn [Tlv.value snd].
    rewrite length_firstn. lia.
Qed.

Lemma top_fields_well_sized mi amt name city crc :
  (length mi < 100)%nat ->
  (forall s, amt = Some s -> (length s < 100)%nat) ->
  0 <= crc < 65536 ->
  Forall well_sized
    (top_fields mi amt (firstn 25 name) (firstn 15 city) (format_X 4 crc)).
Proof.
  intros Hmi Hamt Hcrc. unfold top_fields, well_sized.
  assert (Hx : length (format_X 4 crc) = 4%nat)
    by apply (format_X4_upper_hex crc Hcrc).
  repeat (apply Forall_cons; [split; [reflexivity | cbn [Tlv.value snd]]|]).
  - vm_compute. lia.
  - lia.
  - vm_compute. lia.
  - vm_compute. lia.
  - apply Forall_app. split.
    + destruct amt as [s|]; [|apply Forall_nil].
      apply Forall_cons; [|apply Forall_nil].
      split; [reflexivity|]. apply Hamt. reflexivity.
    + repeat (apply Forall_cons; [split; [reflexivity | cbn [Tlv.value snd]]|]).
      * vm_compute. lia.
      * rewrite length_firstn. lia.
      * rewrite length_firstn. lia.
      * vm_compute. lia.
      * lia.
      * apply Forall_nil.
Qed.

Lemma fits_sizes cpf amount description amt :
  fits cpf amount description = true ->
  amount_value amount = Ok amt ->
  (length (merchant_info (format_cpf cpf) description) < 100)%nat
  /\ (forall s, amt = Some s -> (length s < 100)%nat).
Proof.
  unfold fits, amount_fits. intros H Hamt. rewrite Hamt in H.
  apply andb_true_iff in H. destruct H as [H1 H2].
  apply Nat.ltb_lt in H1. split; [assumption|].
  intros s ->. apply Nat.ltb_lt in H2. assumption.
Qed.

(** What every returned payload is: the rendering of its fields, and,
    when the lengths fit in two digits, what a reader finds in it. *)
Lemma payload_read_back cpf amount description name city P :
  generate_pix_payload cpf amount description name city = Ok P ->
  exists amt crc,
    amount_value amount = Ok amt
    /\ 0 <= crc < 65536
    /\ P = Tlv.render
             (top_fields (merchant_info (format_cpf cpf) description) amt
                (firstn 25 name) (firstn 15 city) (format_X 4 crc))
    /\ (fits cpf amount description = true ->
        Tlv.read_fields P =
          Some (top_fields (merchant_info (format_cpf cpf) description) amt
                  (firstn 25 name) (firstn 15 city) (format_X 4 crc))
        /\ Tlv.read_fields (merchant_info (format_cpf cpf) description) =
             Some (account_fields (format_cpf cpf) description)).
Proof.
  intros H. apply generate_pix_payload_fields in H.
  destruct H as (amt & crc & body & Hamt & Hcrc & _ & HP).
  pose proof (calculate_crc16_range _ _ Hcrc) as Hrange.
  exists amt, crc. split; [assumption|]. split; [assumption|].
  split; [assumption|].
  intros Hfits. destruct (fits_sizes _ _ _ _ Hfits Hamt) as [Hmi Hs].
  split.
  - rewrite HP. apply read_fields_render.
    apply top_fields_well_sized; assumption.
  - rewrite merchant_info_render at 1. apply read_fields_render.
    apply account_fields_well_sized; assumption.
Qed.

(** * The claims *)

(** ** C3: the checksum is CRC16/CCITT-FALSE *)

(** C3.  [calculate_crc16] computes CRC16/CCITT-FALSE over the UTF-8 bytes
    of its argument: on every string it returns what the register machine
    of the specification ([CcittFalse.crc16]: initial value [0xFFFF], byte
    XORed into the high eight bits, eight shift steps with the polynomial
    [0x1021], 16-bit register, no final XOR) returns on the encoded bytes,
    and raises exactly when the encoding does; the result is a 16-bit
    number; the check value of ["123456789"] is [0x29B1]. *)
Theorem calculate_crc16_is_ccitt_false :
  (forall data,
      calculate_crc16 data = result_map CcittFalse.crc16 (encode_utf8 data))
  /\ (forall bs, 0 <= CcittFalse.crc16 bs < 65536)
  /\ encode_utf8 (lit "123456789") = Ok (lit "123456789")
  /\ calculate_crc16 (lit "123456789") = Ok 0x29B1.
Proof.
  split; [|split; [|split]].
  - intros data. unfold calculate_crc16, crc16_ccitt, result_map.
    destruct (encode_utf8 data) as [bs|e]; [|reflexivity].
    cbn [bind]. f_equal. apply crc_fold_spec.
  - intros bs. unfold CcittFalse.crc16. rewrite <- crc_fold_spec.
    apply crc_fold_range. lia.
  - vm_compute. reflexivity.
  - vm_compute. reflexivity.
Qed.

(** ** C2: the checksum trailer *)

(** C2.  For every payload [P] that [generate_pix_payload] returns, let
    [P'] be [P] without its last four characters.  Then [P'] ends with
    ["6304"], [calculate_crc16 P'] succeeds, the four removed characters
    are the [:04X] rendering of that checksum (four upper-case hexadecimal
    digits), and read as a hexadecimal number they give the checksum
    back. *)
Theorem checksum_self_consistent cpf amount description name city P :
  generate_pix_payload cpf amount description name city = Ok P ->
  exists crc body,
    firstn (length P - 4) P = body ++ lit "6304"
    /\ calculate_crc16 (firstn (length P - 4) P) = Ok crc
    /\ skipn (length P - 4) P = format_X 4 crc
    /\ length (skipn (length P - 4) P) = 4%nat
    /\ Forall is_upper_hex (skipn (length P - 4) P)
    /\ int_of_hex (skipn (length P - 4) P) = Some crc.
Proof.
  intros H. apply generate_pix_payload_fields in H.
  destruct H as (amt & crc & body & _ & Hcrc & HP & _).
  pose proof (calculate_crc16_range _ _ Hcrc) as Hrange.
  destruct (format_X4_upper_hex crc Hrange) as [Hlen Hhex].
  rewrite app_assoc in HP.
  assert (Hn : (length P - 4)%nat = length (body ++ lit "6304")).
  { rewrite HP, length_app, Hlen. lia. }
  assert (Hfirst : firstn (length P - 4) P = body ++ lit "6304").
  { rewrite Hn, HP.
    rewrite firstn_app, Nat.sub_diag, firstn_all, firstn_O, app_nil_r.
    reflexivity. }
  assert (Hskip : skipn (length P - 4) P = format_X 4 crc).
  { rewrite Hn, HP.
    rewrite skipn_app, Nat.sub_diag, skipn_all, skipn_O. reflexivity. }
  exists crc, body. rewrite Hskip, Hfirst.
  repeat split; try assumption.
  apply int_of_hex_format_X4. assumption.
Qed.

Lemma checksum_self_consistent_witness :
  generate_pix_payload sample_cpf (PyFloat float_250) sample_item
    default_merchant_name default_merchant_city = Ok sample_payload
  /\ exists crc body,
      firstn (length sample_payload - 4) sample_payload = body ++ lit "6304"
      /\ calculate_crc16 (firstn (length sample_payload - 4) sample_payload)
         = Ok crc
      /\ skipn (length sample_payload - 4) sample_payload = format_X 4 crc
      /\ length (skipn (length sample_payload - 4) sample_payload) = 4%nat
      /\ Forall is_upper_hex (skipn (length sample_payload - 4) sample_payload)
      /\ int_of_hex (skipn (length sample_payload - 4) sample_payload)
         = Some crc.
Proof.
  split; [vm_compute; reflexivity|].
  apply (checksum_self_consistent sample_cpf (PyFloat float_250) sample_item
           default_merchant_name default_merchant_city).
  vm_compute. reflexivity.
Defined.

(** ** C9: the normalisation of the key *)

Lemma in_ranges_false (c : Z) (rs : list (Z * Z)) :
  Forall (fun r => c < fst r \/ snd r < c) rs ->
  existsb (fun r => (fst r <=? c) && (c <=? snd r)) rs = false.
Proof.
  induction 1 as [|r rs Hr _ IH]; [reflexivity|].
  cbn [existsb]. rewrite IH, orb_false_r.
  apply andb_false_iff. destruct Hr; [left | right]; apply Z.leb_gt; lia.
Qed.

Lemma isdigit_ranges_above_ascii :
  Forall (fun r => 128 <= fst r) (tl isdigit_ranges).
Proof.
  apply Forall_forall. intros r Hr.
  assert (H : forallb (fun r => 128 <=? fst r) (tl isdigit_ranges) = true)
    by (vm_compute; reflexivity).
  rewrite forallb_forall in H. apply Z.leb_le. apply H. exact Hr.
Qed.

(** On ASCII, [str.isdigit] is true on ['0'] to ['9'] only. *)
Lemma str_isdigit_ascii c : 0 <= c < 128 -> str_isdigit c = ascii_digit c.
Proof.
  intros Hc. unfold str_isdigit.
  change isdigit_ranges with ((48, 57) :: tl isdigit_ranges).
  cbn [existsb fst snd]. rewrite in_ranges_false; [apply orb_false_r|].
  eapply Forall_impl; [|apply isdigit_ranges_above_ascii].
  cbv beta. intros r Hr. left. lia.
Qed.

Lemma str_isdigit_not_surrogate c :
  str_isdigit c = true -> is_surrogate c = false.
Proof.
  unfold str_isdigit, is_surrogate. intros H.
  apply existsb_exists in H. destruct H as (r & Hr & Hc).
  assert (T : forallb (fun r => (snd r <? 0xD800) || (0xDFFF <? fst r))
                isdigit_ranges = true) by (vm_compute; reflexivity).
  rewrite forallb_forall in T. specialize (T r Hr).
  apply andb_true_iff in Hc. destruct Hc as [Hlo Hhi].
  apply Z.leb_le in Hlo, Hhi. apply orb_true_iff in T.
  apply andb_false_iff.
  destruct T as [T|T]; apply Z.ltb_lt in T;
    [left | right]; apply Z.leb_gt; lia.
Qed.

Lemma filter_ext_Forall {A} (f g : A -> bool) (P : A -> Prop) (l : list A) :
  (forall a, P a -> f a = g a) -> Forall P l -> filter f l = filter g l.
Proof.
  intros E. induction 1 as [|a l Ha _ IH]; [reflexivity|].
  cbn [filter]. rewrite (E a Ha), IH. reflexivity.
Qed.

(** On an ASCII key [format_cpf] removes exactly the characters that are
    not one of ['0'] to ['9']. *)
Lemma format_cpf_ascii cpf :
  is_ascii cpf -> format_cpf cpf = filter ascii_digit cpf.
Proof.
  intros H. unfold format_cpf.
  apply (filter_ext_Forall _ _ (fun c => 0 <= c < 128)); [|exact H].
  apply str_isdigit_ascii.
Qed.

(** C9.  The code departs from the claim on the key ["1²2"]: the
    superscript two (U+00B2) is not a decimal digit, and stripping every
    character that is not one leaves ["12"]; but [str.isdigit] is true on
    it, so [format_cpf] returns the key unchanged and
    [generate_pix_payload] embeds it as the key sub-field ["0103"]
    followed by ["1²2"].  The example of the claim holds:
    ["131.134.976-63"] is normalised to ["13113497663"]. *)
Theorem superscript_two_reaches_the_payload :
  ascii_digit 178 = false
  /\ filter ascii_digit superscript_key = lit "12"
  /\ format_cpf superscript_key = superscript_key
  /\ generate_pix_payload superscript_key (PyInt 0) [] [] []
     = Ok superscript_payload
  /\ Tlv.read_fields (merchant_info (format_cpf superscript_key) []) =
       Some [(lit "00", lit "BR.GOV.BCB.PIX"); (lit "01", superscript_key)]
  /\ has_infix (lit "0103" ++ superscript_key) superscript_payload = true
  /\ format_cpf (lit "131.134.976-63") = lit "13113497663".
Proof.
  split; [vm_compute; reflexivity|].
  split; [vm_compute; reflexivity|].
  split; [vm_compute; reflexivity|].
  split; [vm_compute; reflexivity|].
  split; [vm_compute; reflexivity|].
  split; vm_compute; reflexivity.
Qed.

(** ** ASCII inputs give an ASCII payload *)

Lemma is_ascii_format_d2 n : 0 <= n -> is_ascii (format_d 2 n).
Proof. intros H. apply is_ascii_dec, format_d2_dec, H. Qed.

Lemma len_nonneg s : 0 <= len s.
Proof. unfold len. lia. Qed.

Lemma is_ascii_render fs : Forall ascii_field fs -> is_ascii (Tlv.render fs).
Proof.
  induction 1 as [|f fs [Ht Hv] _ IH]; [constructor|].
  change (Tlv.render (f :: fs)) with (Tlv.render_field f ++ Tlv.render fs).
  apply is_ascii_app; [|exact IH].
  unfold Tlv.render_field.
  apply is_ascii_app; [assumption|].
  apply is_ascii_app; [apply is_ascii_format_d2, len_nonneg | assumption].
Qed.

Lemma amount_value_format amount s :
  amount_value amount = Ok (Some s) -> format_amount amount = Ok s.
Proof.
  unfold amount_value. destruct (gt_zero amount) as [[|]|e]; cbn [bind].
  - destruct (format_amount amount) as [t|e]; cbn [bind].
    + intros H. apply Ok_inj in H. congruence.
    + discriminate.
  - discriminate.
  - discriminate.
Qed.

Lemma ascii_field_intro t v :
  forallb (fun c => (0 <=? c) && (c <? 128)) t = true ->
  is_ascii v -> ascii_field (t, v).
Proof. intros Ht Hv. split; [apply is_ascii_forallb, Ht | exact Hv]. Qed.

Lemma ascii_account_fields cpf description :
  is_ascii cpf -> is_ascii description ->
  Forall ascii_field (account_fields (format_cpf cpf) description).
Proof.
  intros Hc Hd. unfold account_fields. apply Forall_app. split.
  - apply Forall_cons;
      [apply ascii_field_intro; [reflexivity | apply is_ascii_forallb; reflexivity]|].
    apply Forall_cons; [|apply Forall_nil].
    apply ascii_field_intro; [reflexivity | apply is_ascii_filter, Hc].
  - destruct description as [|x d]; [apply Forall_nil|].
    apply Forall_cons; [|apply Forall_nil].
    apply ascii_field_intro; [reflexivity | apply is_ascii_firstn, Hd].
Qed.

Lemma ascii_top_fields cpf amount description name city amt crc :
  is_ascii cpf -> is_ascii description -> is_ascii name -> is_ascii city ->
  amount_value amount = Ok amt -> 0 <= crc < 65536 ->
  Forall ascii_field
    (top_fields (merchant_info (format_cpf cpf) description) amt
       (firstn 25 name) (firstn 15 city) (format_X 4 crc)).
Proof.
  intros Hc Hd Hn Hci Hamt Hcrc. unfold top_fields.
  apply Forall_app. split; [|apply Forall_app; split].
  - apply Forall_cons;
      [apply ascii_field_intro; [reflexivity | apply is_ascii_forallb; reflexivity]|].
    apply Forall_cons.
    { apply ascii_field_intro; [reflexivity|].
      rewrite merchant_info_render.
      apply is_ascii_render, ascii_account_fields; assumption. }
    apply Forall_cons;
      [apply ascii_field_intro; [reflexivity | apply is_ascii_forallb; reflexivity]|].
    apply Forall_cons;
      [apply ascii_field_intro; [reflexivity | apply is_ascii_forallb; reflexivity]|].
    apply Forall_nil.
  - destruct amt as [s|]; [|apply Forall_nil].
    apply Forall_cons; [|apply Forall_nil].
    apply ascii_field_intro; [reflexivity|].
    apply (format_amount_ascii amount), amount_value_format, Hamt.
  - apply Forall_cons;
      [apply ascii_field_intro; [reflexivity | apply is_ascii_forallb; reflexivity]|].
    apply Forall_cons;
      [apply ascii_field_intro; [reflexivity | apply is_ascii_firstn, Hn]|].
    apply Forall_cons;
      [apply ascii_field_intro; [reflexivity | apply is_ascii_firstn, Hci]|].
    apply Forall_cons;
      [apply ascii_field_intro; [reflexivity | apply is_ascii_forallb; reflexivity]|].
    apply Forall_cons; [|apply Forall_nil].
    apply ascii_field_intro; [reflexivity|].
    apply is_ascii_upper_hex, (format_X4_upper_hex crc Hcrc).
Qed.

(** ** C1: what the length prefix counts *)

(** C1 as the specification states it fails: with the merchant name ["é"]
    the payload carries the field ["5901é"], declared length 1, while the
    UTF-8 encoding of the value has 2 bytes.  Read with lengths in
    characters the payload gives back its fields; read on its UTF-8 bytes
    with lengths in bytes, as a receiving terminal does, it is
    misaligned from that field on and is rejected. *)
Lemma length_prefix_is_not_byte_length :
  generate_pix_payload sample_cpf (PyInt 0) [] accented_name (lit "SP")
    = Ok accented_payload
  /\ Tlv.read_fields accented_payload =
       Some [(lit "00", lit "01");
             (lit "26", lit "0014BR.GOV.BCB.PIX011113113497663");
             (lit "52", lit "0000"); (lit "53", lit "986");
             (lit "58", lit "BR"); (lit "59", accented_name);
             (lit "60", lit "SP"); (lit "62", lit "0503***");
             (lit "63", lit "DD5C")]
  /\ Tlv.render_field (lit "59", accented_name) = lit "5901" ++ accented_name
  /\ has_infix (lit "5901" ++ accented_name) accented_payload = true
  /\ encode_utf8 accented_name = Ok [195; 169]
  /\ exists bs,
       encode_utf8 accented_payload = Ok bs /\ Tlv.read_fields bs = None.
Proof.
  split; [vm_compute; reflexivity|].
  split; [vm_compute; reflexivity|].
  split; [vm_compute; reflexivity|].
  split; [vm_compute; reflexivity|].
  split; [vm_compute; reflexivity|].
  eexists. split; vm_compute; reflexivity.
Qed.

(** C1, amended.  For every payload returned by [generate_pix_payload]
    whose merchant-account-information group and formatted amount are
    shorter than 100 characters, every field, top-level and nested, is its
    tag, two decimal digits giving the number of characters (code points)
    of its value, and the value: the payload is the rendering of its
    top-level fields and is read back as them, and so are the
    merchant-account-information group and the additional-data group.
    That number is the byte length of the UTF-8 encoding when the
    arguments are ASCII: the payload is then its own encoding. *)
Theorem length_prefix_counts_characters
    cpf amount description name city P :
  generate_pix_payload cpf amount description name city = Ok P ->
  fits cpf amount description = true ->
  exists amt crc,
    let mi := merchant_info (format_cpf cpf) description in
    let account := account_fields (format_cpf cpf) description in
    let top :=
      top_fields mi amt (firstn 25 name) (firstn 15 city) (format_X 4 crc) in
    let additional := [(lit "05", lit "***")] in
    P = Tlv.render top
    /\ Tlv.read_fields P = Some top
    /\ mi = Tlv.render account
    /\ Tlv.read_fields mi = Some account
    /\ additional_data = Tlv.render additional
    /\ Tlv.read_fields additional_data = Some additional
    /\ Forall (fun f => (length (Tlv.value f) < 100)%nat
                        /\ length (format_d 2 (len (Tlv.value f))) = 2%nat)
         (top ++ account ++ additional)
    /\ (is_ascii cpf -> is_ascii description -> is_ascii name ->
        is_ascii city ->
        encode_utf8 P = Ok P
        /\ Forall (fun f => encode_utf8 (Tlv.value f) = Ok (Tlv.value f))
             (top ++ account ++ additional)).
Proof.
  intros H Hfits. apply payload_read_back in H.
  destruct H as (amt & crc & Hamt & Hcrc & HP & Hread).
  destruct (Hread Hfits) as [Htop Hacc].
  destruct (fits_sizes _ _ _ _ Hfits Hamt) as [Hmi Hs].
  exists amt, crc. cbv zeta.
  split; [exact HP|]. split; [exact Htop|].
  split; [apply merchant_info_render|]. split; [exact Hacc|].
  split; [vm_compute; reflexivity|]. split; [vm_compute; reflexivity|].
  assert (Hsized :
    Forall well_sized
      (top_fields (merchant_info (format_cpf cpf) description) amt
         (firstn 25 name) (firstn 15 city) (format_X 4 crc)
       ++ account_fields (format_cpf cpf) description
       ++ [(lit "05", lit "***")])).
  { apply Forall_app. split; [apply top_fields_well_sized; assumption|].
    apply Forall_app. split; [apply account_fields_well_sized; assumption|].
    apply Forall_cons; [|apply Forall_nil].
    split; [reflexivity | vm_compute; lia]. }
  split.
  - eapply Forall_impl; [|exact Hsized].
    intros f [_ Hv]. split; [exact Hv|].
    apply format_d2_length. unfold len. lia.
  - intros Hc Hd Hn Hci.
    assert (Hascii :
      Forall ascii_field
        (top_fields (merchant_info (format_cpf cpf) description) amt
           (firstn 25 name) (firstn 15 city) (format_X 4 crc)
         ++ account_fields (format_cpf cpf) description
         ++ [(lit "05", lit "***")])).
    { apply Forall_app. split; [eapply ascii_top_fields; eassumption|].
      apply Forall_app. split; [apply ascii_account_fields; assumption|].
      apply Forall_cons; [|apply Forall_nil].
      apply ascii_field_intro; [reflexivity|].
      apply is_ascii_forallb; reflexivity. }
    split.
    + apply encode_utf8_ascii. rewrite HP. apply is_ascii_render.
      apply Forall_app in Hascii. apply Hascii.
    + eapply Forall_impl; [|exact Hascii].
      intros f [_ Hv]. apply encode_utf8_ascii, Hv.
Qed.

Lemma length_prefix_counts_characters_witness :
  generate_pix_payload sample_cpf (PyFloat float_250) sample_item
    default_merchant_name default_merchant_city = Ok sample_payload
  /\ fits sample_cpf (PyFloat float_250) sample_item = true
  /\ exists fs,
       Tlv.read_fields sample_payload = Some fs
       /\ sample_payload = Tlv.render fs.
Proof.
  split; [vm_compute; reflexivity|].
  split; [vm_compute; reflexivity|].
  destruct (length_prefix_counts_characters
              sample_cpf (PyFloat float_250) sample_item
              default_merchant_name default_merchant_city sample_payload)
    as (amt & crc & HP & Hread & _);
    [vm_compute; reflexivity | vm_compute; reflexivity |].
  eexists. split; [exact Hread | exact HP].
Defined.

(** ** C4: the head of the payload *)








(** ** [float] of a positive [int] *)







(** ** C5: the transaction amount *)


Lemma top_fields_tag_54 mi amt name city crc_hex v :
  In (lit "54", v) (top_fields mi amt name city crc_hex) <-> amt = Some v.
Proof.
  unfold top_fields. split.
  - intros H. apply in_app_or in H. destruct H as [H|H].
    { exfalso. apply (in_map Tlv.tag) in H. vm_compute in H.
      repeat (destruct H as [H|H]; [discriminate H|]). exact H. }
    apply in_app_or in H. destruct H as [H|H].
    + destruct amt as [s|]; cbn [amount_fields In] in H; [|contradiction].
      destruct H as [H|[]]. congruence.
    + exfalso. apply (in_map Tlv.tag) in H. vm_compute in H.
      repeat (destruct H as [H|H]; [discriminate H|]). exact H.
  - intros ->. apply in_or_app. right. apply in_or_app. left.
    left. reflexivity.
Qed.




(** ** C8 and C10: the display strings *)

Lemma top_fields_tail mi amt name city crc_hex f :
  In f (top_fields mi amt name city crc_hex) ->
  In (Tlv.tag f) [lit "00"; lit "26"; lit "52"; lit "53"; lit "54"]
  \/ In f [(lit "58", lit "BR"); (lit "59", name); (lit "60", city);
           (lit "62", additional_data); (lit "63", crc_hex)].
Proof.
  unfold top_fields. intros H.
  apply in_app_or in H. destruct H as [H|H].
  { left. apply (in_map Tlv.tag) in H.
    change (In (Tlv.tag f) [lit "00"; lit "26"; lit "52"; lit "53"]) in H.
    cbn [In] in *. tauto. }
  apply in_app_or in H. destruct H as [H|H]; [|right; exact H].
  left. destruct amt as [s|]; cbn [amount_fields In] in H; [|contradiction].
  destruct H as [<-|[]]. cbn [In Tlv.tag fst]. tauto.
Qed.

Lemma top_fields_tag_59 mi amt name city crc_hex v :
  In (lit "59", v) (top_fields mi amt name city crc_hex) <-> v = name.
Proof.
  split.
  - intros H. apply top_fields_tail in H. destruct H as [H|H].
    + exfalso. vm_compute in H.
      repeat (destruct H as [H|H]; [discriminate H|]). exact H.
    + cbn [In] in H.
      destruct H as [H|[H|[H|[H|[H|[]]]]]]; try other_tag H.
      apply (f_equal snd) in H. symmetry. exact H.
  - intros ->. unfold top_fields.
    apply in_or_app. right. apply in_or_app. right.
    right. left. reflexivity.
Qed.

Lemma top_fields_tag_60 mi amt name city crc_hex v :
  In (lit "60", v) (top_fields mi amt name city crc_hex) <-> v = city.
Proof.
  split.
  - intros H. apply top_fields_tail in H. destruct H as [H|H].
    + exfalso. vm_compute in H.
      repeat (destruct H as [H|H]; [discriminate H|]). exact H.
    + cbn [In] in H.
      destruct H as [H|[H|[H|[H|[H|[]]]]]]; try other_tag H.
      apply (f_equal snd) in H. symmetry. exact H.
  - intros ->. unfold top_fields.
    apply in_or_app. right. apply in_or_app. right.
    right. right. left. reflexivity.
Qed.

Lemma account_fields_tag_02 cpf_formatted description v :
  In (lit "02", v) (account_fields cpf_formatted description)
  <-> description <> [] /\ v = firstn 25 description.
Proof.
  unfold account_fields, description_fields. split.
  - intros H. apply in_app_or in H. destruct H as [H|H].
    + cbn [In] in H. destruct H as [H|[H|[]]]; other_tag H.
    + destruct description as [|x d]; [contradiction|].
      destruct H as [H|[]]. split; [discriminate|].
      apply (f_equal snd) in H. symmetry. exact H.
  - intros [Hd ->]. apply in_or_app. right.
    destruct description as [|x d]; [congruence|]. left. reflexivity.
Qed.

(** C8.  In every payload returned by [generate_pix_payload] the value of
    the merchant-name field (tag ["59"]) is the first 25 characters of the
    supplied name, the value of the merchant-city field (tag ["60"]) the
    first 15 characters of the supplied city, and the value of the
    description sub-field (tag ["02"] of the merchant-account-information
    group), when there is one, the first 25 characters of the supplied
    description; a longer string is cut to exactly that many characters. *)
Theorem display_strings_truncated cpf amount description name city P :
  generate_pix_payload cpf amount description name city = Ok P ->
  exists top account,
    P = Tlv.render top
    /\ In (lit "26", Tlv.render account) top
    /\ (fits cpf amount description = true ->
        Tlv.read_fields P = Some top
        /\ Tlv.read_fields (Tlv.render account) = Some account)
    /\ (forall v, In (lit "59", v) top <-> v = firstn 25 name)
    /\ (forall v, In (lit "60", v) top <-> v = firstn 15 city)
    /\ (forall v, In (lit "02", v) account <->
                  description <> [] /\ v = firstn 25 description)
    /\ length (firstn 25 name) = Nat.min 25 (length name)
    /\ length (firstn 15 city) = Nat.min 15 (length city)
    /\ length (firstn 25 description) = Nat.min 25 (length description).
Proof.
  intros H. apply payload_read_back in H.
  destruct H as (amt & crc & Hamt & Hcrc & HP & Hread).
  exists (top_fields (merchant_info (format_cpf cpf) description) amt
            (firstn 25 name) (firstn 15 city) (format_X 4 crc)),
    (account_fields (format_cpf cpf) description).
  rewrite <- merchant_info_render.
  split; [exact HP|]. split.
  { unfold top_fields. apply in_or_app. left. right. left. reflexivity. }
  split; [exact Hread|].
  split; [intros v; apply top_fields_tag_59|].
  split; [intros v; apply top_fields_tag_60|].
  split; [intros v; apply account_fields_tag_02|].
  rewrite !length_firstn. repeat split.
Qed.

Lemma display_strings_truncated_witness :
  generate_pix_payload sample_cpf (PyFloat float_250)
    long_description long_name long_city = Ok truncated_payload
  /\ (length long_description = 40 /\ length long_name = 30
      /\ length long_city = 20)%nat
  /\ exists top,
       In (lit "59", lit "A merchant name of thirty") top
       /\ In (lit "60", lit "A city of twent") top.
Proof.
  split; [vm_compute; reflexivity|].
  split; [vm_compute; repeat split|].
  destruct (display_strings_truncated sample_cpf (PyFloat float_250)
              long_description long_name long_city truncated_payload)
    as (top & account & _ & _ & _ & Hname & Hcity & _);
    [vm_compute; reflexivity|].
  exists top. split; [apply Hname | apply Hcity]; vm_compute; reflexivity.
Defined.

(** C10.  Every payload returned by [generate_pix_payload] has a
    merchant-name field (tag ["59"]) and a merchant-city field (tag
    ["60"]), whatever the arguments: for an empty name the field is
    ["5900"], for an empty city ["6000"], length digits ["00"] and no
    value.  The description sub-field (tag ["02"]) of the
    merchant-account-information group is there exactly when the
    description is not empty: with an empty description the group holds
    the GUI and the key only. *)
Theorem name_and_city_always_emitted cpf amount description name city P :
  generate_pix_payload cpf amount description name city = Ok P ->
  exists top account,
    P = Tlv.render top
    /\ In (lit "26", Tlv.render account) top
    /\ (fits cpf amount description = true ->
        Tlv.read_fields P = Some top
        /\ Tlv.read_fields (Tlv.render account) = Some account)
    /\ In (lit "59", firstn 25 name) top
    /\ In (lit "60", firstn 15 city) top
    /\ (name = [] ->
        In (lit "59", []) top /\ has_infix (lit "5900") P = true)
    /\ (city = [] ->
        In (lit "60", []) top /\ has_infix (lit "6000") P = true)
    /\ (Tlv.has_tag (lit "02") account <-> description <> [])
    /\ (description = [] ->
        account = [(lit "00", lit "BR.GOV.BCB.PIX");
                   (lit "01", format_cpf cpf)]).
Proof.
  intros H. apply payload_read_back in H.
  destruct H as (amt & crc & Hamt & Hcrc & HP & Hread).
  exists (top_fields (merchant_info (format_cpf cpf) description) amt
            (firstn 25 name) (firstn 15 city) (format_X 4 crc)),
    (account_fields (format_cpf cpf) description).
  rewrite <- merchant_info_render.
  assert (Hname : forall v, v = firstn 25 name ->
            In (lit "59", v)
              (top_fields (merchant_info (format_cpf cpf) description) amt
                 (firstn 25 name) (firstn 15 city) (format_X 4 crc)))
    by (intros v; apply top_fields_tag_59).
  assert (Hcity : forall v, v = firstn 15 city ->
            In (lit "60", v)
              (top_fields (merchant_info (format_cpf cpf) description) amt
                 (firstn 25 name) (firstn 15 city) (format_X 4 crc)))
    by (intros v; apply top_fields_tag_60).
  split; [exact HP|]. split.
  { unfold top_fields. apply in_or_app. left. right. left. reflexivity. }
  split; [exact Hread|].
  split; [apply Hname; reflexivity|].
  split; [apply Hcity; reflexivity|].
  split; [|split; [|split]].
  - intros ->. split; [apply Hname; reflexivity|].
    rewrite HP. change (lit "5900") with (Tlv.render_field (lit "59", [])).
    apply has_infix_render. apply Hname. reflexivity.
  - intros ->. split; [apply Hcity; reflexivity|].
    rewrite HP. change (lit "6000") with (Tlv.render_field (lit "60", [])).
    apply has_infix_render. apply Hcity. reflexivity.
  - unfold Tlv.has_tag. split.
    + intros [v Hv]. apply account_fields_tag_02 in Hv. apply Hv.
    + intros Hd. exists (firstn 25 description).
      apply account_fields_tag_02. split; [exact Hd | reflexivity].
  - intros ->. reflexivity.
Qed.

Lemma name_and_city_always_emitted_witness :
  generate_pix_payload sample_cpf (PyInt 0) [] [] [] = Ok bare_payload
  /\ has_infix (lit "5900") bare_payload = true
  /\ has_infix (lit "6000") bare_payload = true.
Proof.
  split; [vm_compute; reflexivity|].
  destruct (name_and_city_always_emitted sample_cpf (PyInt 0) [] [] []
              bare_payload)
    as (top & account & _ & _ & _ & _ & _ & Hname & Hcity & _);
    [vm_compute; reflexivity|].
  split; [apply Hname | apply Hcity]; reflexivity.
Defined.

(** ** When [generate_pix_payload] returns *)

Lemma encodable_format_cpf cpf : encodable (format_cpf cpf).
Proof.
  apply Forall_forall. intros c Hc. apply filter_In in Hc.
  apply str_isdigit_not_surrogate, Hc.
Qed.

Lemma encodable_render fs :
  Forall encodable_field fs -> encodable (Tlv.render fs).
Proof.
  induction 1 as [|f fs [Ht Hv] _ IH]; [constructor|].
  change (Tlv.render (f :: fs)) with (Tlv.render_field f ++ Tlv.render fs).
  apply encodable_app; [|exact IH].
  unfold Tlv.render_field.
  apply encodable_app; [assumption|].
  apply encodable_app; [|assumption].
  apply is_ascii_encodable, is_ascii_format_d2, len_nonneg.
Qed.

Lemma encodable_field_intro t v :
  forallb (fun c => (0 <=? c) && (c <? 128)) t = true ->
  encodable v -> encodable_field (t, v).
Proof.
  intros Ht Hv. split; [|exact Hv].
  apply is_ascii_encodable, is_ascii_forallb, Ht.
Qed.

Lemma encodable_account_fields cpf description :
  encodable description ->
  Forall encodable_field (account_fields (format_cpf cpf) description).
Proof.
  intros Hd. unfold account_fields. apply Forall_app. split.
  - apply Forall_cons.
    { apply encodable_field_intro; [reflexivity|].
      apply is_ascii_encodable, is_ascii_forallb. reflexivity. }
    apply Forall_cons; [|apply Forall_nil].
    apply encodable_field_intro; [reflexivity | apply encodable_format_cpf].
  - destruct description as [|x d]; [apply Forall_nil|].
    apply Forall_cons; [|apply Forall_nil].
    apply encodable_field_intro; [reflexivity | apply encodable_firstn, Hd].
Qed.

Lemma encodable_top_fields cpf amount description name city amt crc :
  encodable description -> encodable name -> encodable city ->
  amount_value amount = Ok amt -> 0 <= crc < 65536 ->
  Forall encodable_field
    (top_fields (merchant_info (format_cpf cpf) description) amt
       (firstn 25 name) (firstn 15 city) (format_X 4 crc)).
Proof.
  intros Hd Hn Hci Hamt Hcrc. unfold top_fields.
  assert (Hlit : forall t v,
            forallb (fun c => (0 <=? c) && (c <? 128)) t = true ->
            forallb (fun c => (0 <=? c) && (c <? 128)) v = true ->
            encodable_field (t, v)).
  { intros t v Ht Hv. apply encodable_field_intro; [exact Ht|].
    apply is_ascii_encodable, is_ascii_forallb, Hv. }
  apply Forall_app. split; [|apply Forall_app; split].
  - apply Forall_cons; [apply Hlit; reflexivity|].
    apply Forall_cons.
    { apply encodable_field_intro; [reflexivity|].
      rewrite merchant_info_render.
      apply encodable_render, encodable_account_fields, Hd. }
    apply Forall_cons; [apply Hlit; reflexivity|].
    apply Forall_cons; [apply Hlit; reflexivity|].
    apply Forall_nil.
  - destruct amt as [s|]; [|apply Forall_nil].
    apply Forall_cons; [|apply Forall_nil].
    apply encodable_field_intro; [reflexivity|].
    apply is_ascii_encodable.
    apply (format_amount_ascii amount), amount_value_format, Hamt.
  - apply Forall_cons; [apply Hlit; reflexivity|].
    apply Forall_cons;
      [apply encodable_field_intro; [reflexivity | apply encodable_firstn, Hn]|].
    apply Forall_cons;
      [apply encodable_field_intro; [reflexivity | apply encodable_firstn, Hci]|].
    apply Forall_cons; [apply Hlit; reflexivity|].
    apply Forall_cons; [|apply Forall_nil].
    apply encodable_field_intro; [reflexivity|].
    apply is_ascii_encodable, is_ascii_upper_hex, (format_X4_upper_hex crc Hcrc).
Qed.

Lemma amount_field_of_value amount amt :
  amount_value amount = Ok amt ->
  amount_field amount = Ok (Tlv.render (amount_fields amt)).
Proof.
  unfold amount_value, amount_field.
  destruct (gt_zero amount) as [[|]|e]; cbn [bind]; [| |discriminate].
  - destruct (format_amount amount) as [s|e]; cbn [bind]; [|discriminate].
    intros H. apply Ok_inj in H. subst amt.
    unfold Tlv.render, amount_fields, Tlv.render_field, Tlv.tag, Tlv.value.
    cbn [flat_map fst snd]. rewrite app_nil_r. reflexivity.
  - intros H. apply Ok_inj in H. subst amt. reflexivity.
Qed.

(** The payload is returned whenever the amount step succeeds and the
    display strings can be encoded: no step looks at a length. *)
Lemma generate_pix_payload_total cpf amount description name city amt :
  amount_value amount = Ok amt ->
  encodable description -> encodable name -> encodable city ->
  exists P, generate_pix_payload cpf amount description name city = Ok P.
Proof.
  intros Hamt Hd Hn Hci.
  pose proof (encodable_top_fields cpf amount description name city amt 0
                Hd Hn Hci Hamt ltac:(lia)) as Henc.
  apply encodable_render in Henc.
  rewrite render_top_fields in Henc by lia.
  unfold generate_pix_payload. cbv zeta.
  rewrite (amount_field_of_value _ _ Hamt). cbn [bind].
  match goal with
  | |- exists P, bind (calculate_crc16 ?X) _ = Ok P =>
      assert (HX : encodable X)
  end.
  { repeat rewrite <- app_assoc.
    repeat rewrite app_assoc in Henc. apply Forall_app in Henc.
    destruct Henc as [Henc _]. repeat rewrite <- app_assoc in Henc.
    exact Henc. }
  apply encode_utf8_encodable in HX. destruct HX as [bs Hbs].
  unfold calculate_crc16, crc16_ccitt. rewrite Hbs. cbn [bind].
  eexists. reflexivity.
Qed.

(** ** C6: values of 100 characters and more *)

(** C6 as the specification states it fails: a key of 100 digits is not
    refused.  The payload is returned, with the key field ["01100…"] and
    the group field ["26123…"], their lengths written with three
    digits. *)
Lemma long_key_is_not_rejected :
  length long_cpf = 100%nat
  /\ format_cpf long_cpf = long_cpf
  /\ generate_pix_payload long_cpf (PyInt 0) [] [] [] = Ok long_key_payload
  /\ starts_with (lit "00020126123") long_key_payload = true
  /\ has_infix (lit "01100" ++ long_cpf) long_key_payload = true.
Proof.
  split; [reflexivity|].
  split; [vm_compute; reflexivity|].
  split; [vm_compute; reflexivity|].
  split; vm_compute; reflexivity.
Qed.

(** C6, amended.  [generate_pix_payload] has no [FieldTooLong] error and
    never looks at the length of a value: whenever the amount step
    succeeds and the display strings have no surrogate code point, it
    returns the rendering of its fields, whatever their lengths.  A value
    of 100 characters or more is emitted with its full decimal length, of
    three digits or more, after the tag. *)
Theorem field_length_is_never_checked
    cpf amount description name city amt :
  amount_value amount = Ok amt ->
  encodable description -> encodable name -> encodable city ->
  exists P crc,
    generate_pix_payload cpf amount description name city = Ok P
    /\ P = Tlv.render
             (top_fields (merchant_info (format_cpf cpf) description) amt
                (firstn 25 name) (firstn 15 city) (format_X 4 crc))
    /\ merchant_info (format_cpf cpf) description
       = Tlv.render (account_fields (format_cpf cpf) description)
    /\ (forall t v, (100 <= length v)%nat ->
          Tlv.render_field (t, v) = t ++ int_digits 10 dec_digit (len v) ++ v
          /\ (3 <= length (int_digits 10 dec_digit (len v)))%nat).
Proof.
  intros Hamt Hd Hn Hci.
  destruct (generate_pix_payload_total cpf amount description name city amt
              Hamt Hd Hn Hci) as [P HP].
  pose proof (payload_read_back _ _ _ _ _ _ HP)
    as (amt' & crc & Hamt' & _ & Hrender & _).
  assert (amt' = amt) by congruence. subst amt'.
  exists P, crc. split; [exact HP|]. split; [exact Hrender|].
  split; [apply merchant_info_render|].
  intros t v Hv.
  assert (H100 : 100 <= len v) by (unfold len; lia).
  destruct (format_d2_large (len v) H100) as [E _].
  unfold Tlv.render_field, Tlv.tag, Tlv.value. cbn [fst snd].
  rewrite E. split; [reflexivity|].
  apply int_digits_length_100, H100.
Qed.

Lemma field_length_is_never_checked_witness :
  amount_value (PyInt 0) = Ok None
  /\ encodable []
  /\ exists P, generate_pix_payload long_cpf (PyInt 0) [] [] [] = Ok P.
Proof.
  split; [reflexivity|]. split; [constructor|].
  destruct (field_length_is_never_checked long_cpf (PyInt 0) [] [] [] None)
    as (P & crc & HP & _);
    [reflexivity | constructor | constructor | constructor |].
  exists P. exact HP.
Defined.

(** ** C7: amounts that are not finite numbers *)




(** * Further properties of the code *)

(** ** [format_cpf] *)

Lemma filter_all_true {A} (f : A -> bool) (l : list A) :
  filter f l = l <-> Forall (fun a => f a = true) l.
Proof.
  split.
  - intros E. apply Forall_forall. intros a Ha.
    rewrite <- E in Ha. apply filter_In in Ha. apply Ha.
  - induction 1 as [|a l Ha _ IH]; [reflexivity|].
    cbn [filter]. rewrite Ha, IH. reflexivity.
Qed.

Lemma filter_idempotent {A} (f : A -> bool) (l : list A) :
  filter f (filter f l) = filter f l.
Proof.
  apply filter_all_true, Forall_forall.
  intros a Ha. apply filter_In in Ha. apply Ha.
Qed.

(** X1.  [format_cpf] is a normalisation: applying it twice is applying it
    once, its result is never longer than its argument and holds digit
    characters only, and the strings it leaves unchanged are exactly the
    strings of digit characters. *)
Theorem format_cpf_is_a_normal_form cpf :
  format_cpf (format_cpf cpf) = format_cpf cpf
  /\ (length (format_cpf cpf) <= length cpf)%nat
  /\ Forall (fun c => str_isdigit c = true) (format_cpf cpf)
  /\ (format_cpf cpf = cpf <-> Forall (fun c => str_isdigit c = true) cpf).
Proof.
  unfold format_cpf. split; [apply filter_idempotent|].
  split; [apply filter_length_le|].
  split; [|apply filter_all_true].
  apply filter_all_true, filter_idempotent.
Qed.

(** ** [calculate_crc16]: errors *)

Lemma utf8_char_Ok c b : utf8_char c = Ok b -> is_surrogate c = false.
Proof.
  unfold utf8_char, is_surrogate.
  destruct (Z.ltb_spec c 0x80).
  { intros _. apply andb_false_iff. left. apply Z.leb_gt. lia. }
  destruct (Z.ltb_spec c 0x800).
  { intros _. apply andb_false_iff. left. apply Z.leb_gt. lia. }
  destruct (Z.ltb_spec c 0x10000).
  { destruct ((0xD800 <=? c) && (c <=? 0xDFFF)); [discriminate | reflexivity]. }
  intros _. apply andb_false_iff. right. apply Z.leb_gt. lia.
Qed.

Lemma utf8_char_Raise c e :
  utf8_char c = Raise e -> e = UnicodeEncodeError /\ is_surrogate c = true.
Proof.
  unfold utf8_char.
  destruct (c <? 0x80); [discriminate|].
  destruct (c <? 0x800); [discriminate|].
  destruct (c <? 0x10000); [|discriminate].
  destruct (is_surrogate c); [|discriminate].
  intros H. split; [congruence | reflexivity].
Qed.

Lemma encode_utf8_Ok s bs : encode_utf8 s = Ok bs -> encodable s.
Proof.
  revert bs. induction s as [|c s IH]; intros bs H; [constructor|].
  cbn [encode_utf8] in H.
  apply bind_Ok in H. destruct H as (b & Hb & H).
  apply bind_Ok in H. destruct H as (bs' & Hbs' & _).
  constructor; [apply (utf8_char_Ok c b Hb) | apply (IH bs' Hbs')].
Qed.

Lemma encode_utf8_Raise s e :
  encode_utf8 s = Raise e ->
  e = UnicodeEncodeError /\ Exists (fun c => is_surrogate c = true) s.
Proof.
  induction s as [|c s IH]; [discriminate|].
  cbn [encode_utf8].
  destruct (utf8_char c) as [b|e'] eqn:Hc; cbn [bind].
  - destruct (encode_utf8 s) as [bs|e'']; cbn [bind]; [discriminate|].
    intros H. assert (e'' = e) by congruence. subst e''.
    destruct (IH eq_refl) as [He Hex].
    split; [exact He | apply Exists_cons_tl, Hex].
  - intros H. assert (e' = e) by congruence. subst e'.
    apply utf8_char_Raise in Hc. destruct Hc as [He Hs].
    split; [exact He | apply Exists_cons_hd, Hs].
Qed.

Lemma calculate_crc16_Raise s e :
  calculate_crc16 s = Raise e ->
  e = UnicodeEncodeError /\ Exists (fun c => is_surrogate c = true) s.
Proof.
  unfold calculate_crc16, crc16_ccitt.
  destruct (encode_utf8 s) as [bs|e'] eqn:E; cbn [bind]; [discriminate|].
  intros H. assert (e' = e) by congruence. subst e'.
  apply (encode_utf8_Raise s e E).
Qed.

(** X2.  [calculate_crc16] returns a checksum exactly for the strings
    without surrogate code points; the only exception it raises is
    [UnicodeEncodeError], and then the string holds a surrogate. *)
Theorem calculate_crc16_fails_on_surrogates_only s :
  ((exists crc, calculate_crc16 s = Ok crc) <-> encodable s)
  /\ (forall e, calculate_crc16 s = Raise e ->
        e = UnicodeEncodeError
        /\ Exists (fun c => is_surrogate c = true) s).
Proof.
  unfold calculate_crc16, crc16_ccitt. split; [split|].
  - intros [crc H]. apply bind_Ok in H. destruct H as (bs & Hbs & _).
    apply (encode_utf8_Ok s bs Hbs).
  - intros H. apply encode_utf8_encodable in H. destruct H as [bs Hbs].
    rewrite Hbs. cbn [bind]. eexists. reflexivity.
  - intros e. apply calculate_crc16_Raise.
Qed.

(** ** [calculate_crc16]: the residue *)

Lemma crc_shift_low c : 0 <= c < 32768 -> crc_shift c = 2 * c.
Proof.
  intros Hc. rewrite crc_shift_spec. unfold CcittFalse.shift_step.
  replace (Z.testbit c 15) with false.
  - apply Z.mod_small. lia.
  - symmetry. destruct (Z.eq_dec c 0) as [->|Hnz]; [apply Z.bits_0|].
    apply Z.bits_above_log2; [lia|].
    apply Z.log2_lt_pow2; lia.
Qed.

Lemma crc_byte_low c : 0 <= c < 256 -> Nat.iter 8 crc_shift c = 256 * c.
Proof.
  intros Hc. cbn [Nat.iter nat_rect].
  rewrite (crc_shift_low c) by lia.
  rewrite (crc_shift_low (2 * c)) by lia.
  rewrite (crc_shift_low (2 * (2 * c))) by lia.
  rewrite (crc_shift_low (2 * (2 * (2 * c)))) by lia.
  rewrite (crc_shift_low (2 * (2 * (2 * (2 * c))))) by lia.
  rewrite (crc_shift_low (2 * (2 * (2 * (2 * (2 * c)))))) by lia.
  rewrite (crc_shift_low (2 * (2 * (2 * (2 * (2 * (2 * c))))))) by lia.
  rewrite (crc_shift_low (2 * (2 * (2 * (2 * (2 * (2 * (2 * c)))))))) by lia.
  lia.
Qed.

Lemma lxor_high_byte c :
  0 <= c < 65536 -> Z.lxor c (Z.shiftl (c / 256) 8) = c mod 256.
Proof.
  intros Hc. apply Z.bits_inj'. intros n Hn.
  rewrite Z.lxor_spec.
  change 256 with (2 ^ 8). rewrite <- Z.shiftr_div_pow2 by lia.
  destruct (Z.leb_spec 8 n) as [Hge|Hlt].
  - rewrite Z.mod_pow2_bits_high by lia.
    rewrite Z.shiftl_spec, Z.shiftr_spec by lia.
    replace (n - 8 + 8) with n by lia. apply xorb_nilpotent.
  - rewrite Z.mod_pow2_bits_low by lia.
    rewrite Z.shiftl_spec_low by lia. apply xorb_false_r.
Qed.

(** Feeding the register its own two bytes, high byte first, clears it. *)
Lemma crc_residue c :
  0 <= c < 65536 -> crc_byte (crc_byte c (c / 256)) (c mod 256) = 0.
Proof.
  intros Hc. unfold crc_byte at 2. rewrite lxor_high_byte by assumption.
  rewrite crc_byte_low by zdiv.
  unfold crc_byte.
  rewrite Z.shiftl_mul_pow2 by lia. change (2 ^ 8) with 256.
  rewrite (Z.mul_comm (c mod 256) 256), Z.lxor_nilpotent.
  apply (crc_byte_low 0). lia.
Qed.

Lemma encode_utf8_app s t bs bt :
  encode_utf8 s = Ok bs -> encode_utf8 t = Ok bt ->
  encode_utf8 (s ++ t) = Ok (bs ++ bt).
Proof.
  revert bs. induction s as [|c s IH]; intros bs Hs Ht.
  - apply Ok_inj in Hs. subst bs. exact Ht.
  - cbn [encode_utf8 app] in *.
    apply bind_Ok in Hs. destruct Hs as (b & Hb & Hs).
    apply bind_Ok in Hs. destruct Hs as (bs' & Hbs' & Hs).
    apply Ok_inj in Hs. subst bs.
    rewrite Hb, (IH bs' Hbs' Ht). cbn [bind].
    rewrite app_assoc. reflexivity.
Qed.

(** X3.  The checksum has the residue property of a CRC: a string
    followed by the two bytes of its own checksum, high byte first, has
    checksum 0.  For [calculate_crc16], which takes text, this is the
    case when both bytes are ASCII characters. *)
Theorem calculate_crc16_residue s crc :
  calculate_crc16 s = Ok crc ->
  crc / 256 < 128 -> crc mod 256 < 128 ->
  calculate_crc16 (s ++ [crc / 256; crc mod 256]) = Ok 0.
Proof.
  intros H Hhi Hlo.
  pose proof (calculate_crc16_range _ _ H) as Hrange.
  unfold calculate_crc16, crc16_ccitt in *.
  apply bind_Ok in H. destruct H as (bs & Hbs & H).
  apply Ok_inj in H.
  rewrite (encode_utf8_app s [crc / 256; crc mod 256] bs
             [crc / 256; crc mod 256] Hbs).
  - cbn [bind]. rewrite fold_left_app, H. cbn [fold_left].
    rewrite crc_residue by assumption. reflexivity.
  - apply encode_utf8_ascii.
    repeat (apply Forall_cons; [zdiv|]). apply Forall_nil.
Qed.

Lemma calculate_crc16_residue_witness :
  calculate_crc16 (lit "6304") = Ok 0x6007
  /\ calculate_crc16 (lit "6304" ++ [0x6007 / 256; 0x6007 mod 256]) = Ok 0.
Proof.
  split; [vm_compute; reflexivity|].
  apply (calculate_crc16_residue (lit "6304") 0x6007);
    vm_compute; reflexivity.
Defined.

(** ** [generate_pix_payload]: what the payload depends on *)

Lemma desc_field_nonempty d :
  d <> [] ->
  desc_field d = lit "02" ++ format_d 2 (len (firstn 25 d)) ++ firstn 25 d.
Proof. destruct d; [congruence | reflexivity]. Qed.

Lemma desc_field_firstn d : desc_field (firstn 25 d) = desc_field d.
Proof.
  destruct d as [|x d]; [reflexivity|].
  rewrite (desc_field_nonempty (firstn 25 (x :: d))) by discriminate.
  rewrite (desc_field_nonempty (x :: d)) by discriminate.
  rewrite firstn_firstn. reflexivity.
Qed.

Lemma normalised_arguments cpf amount description name city :
  generate_pix_payload (format_cpf cpf) amount (firstn 25 description)
    (firstn 25 name) (firstn 15 city)
  = generate_pix_payload cpf amount description name city.
Proof.
  unfold generate_pix_payload. cbv zeta.
  unfold merchant_info, format_cpf.
  rewrite filter_idempotent, desc_field_firstn, !firstn_firstn.
  reflexivity.
Qed.

(** X4.  The payload depends on the arguments through their normal forms
    only: the digits of the key, the first 25 characters of the
    description and of the name, the first 15 of the city.  Normalising
    the arguments beforehand changes neither the payload nor the
    exception. *)
Theorem generate_pix_payload_of_normalised_arguments
    cpf amount description name city :
  generate_pix_payload (format_cpf cpf) amount (firstn 25 description)
    (firstn 25 name) (firstn 15 city)
  = generate_pix_payload cpf amount description name city.
Proof. apply normalised_arguments. Qed.

(** The amount step of an amount that is not positive appends nothing. *)
Lemma amount_field_not_positive amount :
  gt_zero amount = Ok false -> amount_field amount = Ok [].
Proof. unfold amount_field. intros ->. reflexivity. Qed.

(** X5.  An amount that is not greater than zero is ignored: two such
    amounts, whatever they are (an [int] of zero or less, a negative or
    zero [float], a NaN, negative infinity), give the same result. *)
Theorem generate_pix_payload_ignores_non_positive_amounts
    cpf amount amount' description name city :
  gt_zero amount = Ok false -> gt_zero amount' = Ok false ->
  generate_pix_payload cpf amount description name city
  = generate_pix_payload cpf amount' description name city.
Proof.
  intros H H'. unfold generate_pix_payload. cbv zeta.
  rewrite (amount_field_not_positive amount H).
  rewrite (amount_field_not_positive amount' H').
  reflexivity.
Qed.

Lemma generate_pix_payload_ignores_non_positive_amounts_witness :
  gt_zero (PyInt (-5)) = Ok false
  /\ gt_zero (PyFloat S754_nan) = Ok false
  /\ generate_pix_payload sample_cpf (PyInt (-5)) sample_item [] []
     = generate_pix_payload sample_cpf (PyFloat S754_nan) sample_item [] [].
Proof.
  split; [reflexivity|]. split; [reflexivity|].
  apply (generate_pix_payload_ignores_non_positive_amounts
           sample_cpf (PyInt (-5)) (PyFloat S754_nan) sample_item [] []);
    reflexivity.
Defined.

(** X6.  A positive [float] amount of at most half a cent is not dropped:
    the amount field is emitted with the value ["0.00"]. *)
Theorem tiny_amount_is_emitted_as_zero m e :
  e < 0 -> 200 * Z.pos m <= 2 ^ (- e) ->
  gt_zero (PyFloat (S754_finite false m e)) = Ok true
  /\ amount_field (PyFloat (S754_finite false m e)) = Ok (lit "54040.00").
Proof.
  intros He Hm. split; [reflexivity|].
  assert (Hc : cents m e = 0).
  { unfold cents. destruct (Z.leb_spec 0 e); [lia|].
    unfold round_half_even. cbv zeta.
    assert (Hd : 0 < 2 ^ (- e)) by (apply Z.pow_pos_nonneg; lia).
    assert (Hq : Z.pos m * 100 / 2 ^ (- e) = 0)
      by (apply Z.div_small; lia).
    assert (Hr : (Z.pos m * 100) mod 2 ^ (- e) = Z.pos m * 100)
      by (apply Z.mod_small; lia).
    rewrite Hq, Hr.
    destruct (Z.compare_spec (2 * (Z.pos m * 100)) (2 ^ (- e)));
      [reflexivity | reflexivity | lia]. }
  unfold amount_field. cbn [gt_zero format_amount format_2f bind].
  change (SFltb (S754_zero false) (S754_finite false m e)) with true.
  cbv iota. rewrite Hc. vm_compute. reflexivity.
Qed.

Lemma tiny_amount_is_emitted_as_zero_witness :
  amount_field (PyFloat (S754_finite false 1 (-8))) = Ok (lit "54040.00").
Proof.
  apply (tiny_amount_is_emitted_as_zero 1 (-8)); vm_compute;
    [reflexivity | discriminate].
Defined.

(** ** [generate_pix_payload]: when it returns and what it raises *)

Lemma encodable_render_inv fs :
  encodable (Tlv.render fs) ->
  forall f, In f fs -> encodable (Tlv.value f).
Proof.
  induction fs as [|g fs IH]; intros H f Hf; [contradiction|].
  change (Tlv.render (g :: fs))
    with (Tlv.render_field g ++ Tlv.render fs) in H.
  apply Forall_app in H. destruct H as [Hg Hfs].
  destruct Hf as [->|Hf]; [|apply (IH Hfs f Hf)].
  unfold Tlv.render_field in Hg.
  apply Forall_app in Hg. destruct Hg as [_ Hg].
  apply Forall_app in Hg. apply Hg.
Qed.

Lemma returned_payload_encodable cpf amount description name city P :
  generate_pix_payload cpf amount description name city = Ok P ->
  encodable P.
Proof.
  intros H. apply generate_pix_payload_fields in H.
  destruct H as (amt & crc & body & _ & Hcrc & HP & _).
  pose proof (calculate_crc16_range _ _ Hcrc) as Hrange.
  unfold calculate_crc16, crc16_ccitt in Hcrc.
  apply bind_Ok in Hcrc. destruct Hcrc as (bs & Hbs & _).
  apply encode_utf8_Ok in Hbs.
  rewrite HP, app_assoc. apply encodable_app; [exact Hbs|].
  apply is_ascii_encodable, is_ascii_upper_hex.
  apply (format_X4_upper_hex crc Hrange).
Qed.

Lemma returns_with_truncated cpf amount description name city amt :
  amount_value amount = Ok amt ->
  encodable (firstn 25 description) -> encodable (firstn 25 name) ->
  encodable (firstn 15 city) ->
  exists P, generate_pix_payload cpf amount description name city = Ok P.
Proof.
  intros Hamt Hd Hn Hc. rewrite <- normalised_arguments.
  apply (generate_pix_payload_total _ _ _ _ _ amt); assumption.
Qed.

(** X7.  [generate_pix_payload] returns a payload exactly when the amount
    step succeeds and the parts of the display strings that are kept (the
    first 25 characters of the description and of the name, the first 15
    of the city) hold no surrogate code point.  A surrogate beyond the
    cut, or any character of the key, never makes it fail. *)
Theorem generate_pix_payload_returns_iff cpf amount description name city :
  (exists P, generate_pix_payload cpf amount description name city = Ok P)
  <->
  (exists amt, amount_value amount = Ok amt)
  /\ encodable (firstn 25 description)
  /\ encodable (firstn 25 name)
  /\ encodable (firstn 15 city).
Proof.
  split.
  - intros [P H].
    pose proof (returned_payload_encodable _ _ _ _ _ _ H) as Henc.
    apply payload_read_back in H.
    destruct H as (amt & crc & Hamt & _ & HP & _).
    rewrite HP in Henc.
    pose proof (encodable_render_inv _ Henc) as Hval.
    split; [exists amt; exact Hamt|]. split; [|split].
    + destruct description as [|x d]; [constructor|].
      assert (Hmi : encodable
                      (merchant_info (format_cpf cpf) (x :: d))).
      { apply (Hval (lit "26", merchant_info (format_cpf cpf) (x :: d))).
        unfold top_fields. apply in_or_app. left. right. left. reflexivity. }
      rewrite merchant_info_render in Hmi.
      apply (encodable_render_inv _ Hmi (lit "02", firstn 25 (x :: d))).
      apply account_fields_tag_02. split; [discriminate | reflexivity].
    + apply (Hval (lit "59", firstn 25 name)).
      apply top_fields_tag_59. reflexivity.
    + apply (Hval (lit "60", firstn 15 city)).
      apply top_fields_tag_60. reflexivity.
  - intros ([amt Hamt] & Hd & Hn & Hc).
    apply (returns_with_truncated _ _ _ _ _ amt); assumption.
Qed.

Lemma float_of_int_Raise z e : float_of_int z = Raise e -> e = OverflowError.
Proof.
  unfold float_of_int.
  destruct (binary_normalize 53 1024 z 0 false); congruence.
Qed.

Lemma amount_field_Raise amount e :
  amount_field amount = Raise e ->
  (e = TypeError /\ exists s, amount = PyStr s)
  \/ (e = OverflowError
      /\ exists z, amount = PyInt z /\ 0 < z
                   /\ float_of_int z = Raise OverflowError).
Proof.
  unfold amount_field. destruct amount as [z|x|s]; cbn [gt_zero bind].
  - destruct (Z.ltb_spec 0 z) as [Hz|Hz]; [|discriminate].
    cbn [format_amount].
    destruct (float_of_int z) as [x|e'] eqn:E; cbn [bind]; [discriminate|].
    intros H. assert (e' = e) by congruence. subst e'.
    pose proof (float_of_int_Raise z e E). subst e.
    right. split; [reflexivity|]. exists z. repeat split; assumption.
  - destruct (SFltb _ x); cbn [format_amount bind]; discriminate.
  - intros H. left. split; [congruence | exists s; reflexivity].
Qed.

(** X8.  The exceptions of [generate_pix_payload] are three.  A
    non-numeric amount raises [TypeError]; a positive [int] amount beyond
    the range of [float] raises [OverflowError]; otherwise the amount
    step has succeeded and the exception is [UnicodeEncodeError], for a
    surrogate code point in the kept part of a display string.  The
    amount is looked at first: its exception wins over that of the
    strings. *)
Theorem generate_pix_payload_exceptions
    cpf amount description name city e :
  generate_pix_payload cpf amount description name city = Raise e ->
  (e = TypeError /\ exists s, amount = PyStr s)
  \/ (e = OverflowError
      /\ exists z, amount = PyInt z /\ 0 < z
                   /\ float_of_int z = Raise OverflowError)
  \/ (e = UnicodeEncodeError
      /\ (exists amt, amount_value amount = Ok amt)
      /\ ~ (encodable (firstn 25 description)
            /\ encodable (firstn 25 name)
            /\ encodable (firstn 15 city))).
Proof.
  intros H.
  destruct (amount_field amount) as [text|e'] eqn:Ha.
  - right. right.
    apply amount_field_value in Ha. destruct Ha as (amt & Hamt & _).
    assert (He : e = UnicodeEncodeError).
    { unfold generate_pix_payload in H. cbv zeta in H.
      rewrite (amount_field_of_value _ _ Hamt) in H. cbn [bind] in H.
      match type of H with
      | bind (calculate_crc16 ?X) _ = _ =>
          destruct (calculate_crc16 X) as [crc|e'] eqn:Hcrc
      end; cbn [bind] in H; [discriminate H|].
      assert (e' = e) by congruence. subst e'.
      apply calculate_crc16_Raise in Hcrc. apply Hcrc. }
    split; [exact He|]. split; [exists amt; exact Hamt|].
    intros (Hd & Hn & Hc).
    destruct (returns_with_truncated cpf amount description name city amt
                Hamt Hd Hn Hc) as [P HP].
    congruence.
  - assert (e' = e).
    { unfold generate_pix_payload in H. cbv zeta in H.
      rewrite Ha in H. cbn [bind] in H. congruence. }
    subst e'. apply amount_field_Raise in Ha.
    destruct Ha as [Ha|Ha]; [left | right; left]; exact Ha.
Qed.

Lemma generate_pix_payload_exceptions_witness :
  generate_pix_payload sample_cpf (PyFloat float_250) sample_item
    [0xD800] [] = Raise UnicodeEncodeError
  /\ ~ (encodable (firstn 25 sample_item)
        /\ encodable (firstn 25 [0xD800])
        /\ encodable (firstn 15 [])).
Proof.
  split; [vm_compute; reflexivity|].
  destruct (generate_pix_payload_exceptions sample_cpf (PyFloat float_250)
              sample_item [0xD800] [] UnicodeEncodeError)
    as [[H _]|[[H _]|(_ & _ & H)]];
    [vm_compute; reflexivity | discriminate H | discriminate H | exact H].
Defined.

(** ** [generate_pix_payload]: reading the arguments back *)

Lemma top_fields_tag_26 mi amt name city crc_hex v :
  In (lit "26", v) (top_fields mi amt name city crc_hex) <-> v = mi.
Proof.
  unfold top_fields. split.
  - intros H. apply in_app_or in H. destruct H as [H|H].
    { cbn [In] in H. destruct H as [H|[H|[H|[H|[]]]]]; try other_tag H.
      apply (f_equal snd) in H. symmetry. exact H. }
    apply in_app_or in H. destruct H as [H|H].
    + destruct amt as [s|]; cbn [amount_fields In] in H; [|contradiction].
      destruct H as [H|[]]. other_tag H.
    + cbn [In] in H.
      destruct H as [H|[H|[H|[H|[H|[]]]]]]; other_tag H.
  - intros ->. apply in_or_app. left. right. left. reflexivity.
Qed.

Lemma account_fields_tag_01 cpf_formatted description v :
  In (lit "01", v) (account_fields cpf_formatted description)
  <-> v = cpf_formatted.
Proof.
  unfold account_fields, description_fields. split.
  - intros H. apply in_app_or in H. destruct H as [H|H].
    + cbn [In] in H. destruct H as [H|[H|[]]]; try other_tag H.
      apply (f_equal snd) in H. symmetry. exact H.
    + destruct description as [|x d]; [contradiction|].
      destruct H as [H|[]]. other_tag H.
  - intros ->. apply in_or_app. left. right. left. reflexivity.
Qed.

Lemma Some_inj {A} (a b : A) : Some a = Some b -> a = b.
Proof. intros H. congruence. Qed.

(** X9.  The payload determines the normal forms of the arguments: when
    two calls return the same payload (lengths fitting in two digits),
    the keys have the same digits, the descriptions and names the same
    first 25 characters, the cities the same first 15, and the amount
    step gave the same text. *)
Theorem same_payload_same_normal_forms
    cpf1 amount1 description1 name1 city1
    cpf2 amount2 description2 name2 city2 P :
  generate_pix_payload cpf1 amount1 description1 name1 city1 = Ok P ->
  generate_pix_payload cpf2 amount2 description2 name2 city2 = Ok P ->
  fits cpf1 amount1 description1 = true ->
  fits cpf2 amount2 description2 = true ->
  format_cpf cpf1 = format_cpf cpf2
  /\ firstn 25 description1 = firstn 25 description2
  /\ firstn 25 name1 = firstn 25 name2
  /\ firstn 15 city1 = firstn 15 city2
  /\ amount_value amount1 = amount_value amount2.
Proof.
  intros H1 H2 F1 F2.
  apply payload_read_back in H1, H2.
  destruct H1 as (amt1 & crc1 & Hamt1 & _ & _ & R1).
  destruct H2 as (amt2 & crc2 & Hamt2 & _ & _ & R2).
  destruct (R1 F1) as [T1 A1]. destruct (R2 F2) as [T2 A2].
  rewrite T1 in T2. apply Some_inj in T2.
  assert (Hmi : merchant_info (format_cpf cpf1) description1
                = merchant_info (format_cpf cpf2) description2).
  { apply (top_fields_tag_26 _ amt2 (firstn 25 name2) (firstn 15 city2)
             (format_X 4 crc2)).
    rewrite <- T2. apply top_fields_tag_26. reflexivity. }
  rewrite Hmi, A2 in A1. apply Some_inj in A1.
  split; [|split; [|split; [|split]]].
  - symmetry.
    apply (account_fields_tag_01 (format_cpf cpf1) description1).
    rewrite <- A1. apply account_fields_tag_01. reflexivity.
  - destruct description1 as [|x1 d1].
    + destruct description2 as [|x2 d2]; [reflexivity|].
      assert (H : In (lit "02", firstn 25 (x2 :: d2))
                    (account_fields (format_cpf cpf1) []))
        by (rewrite <- A1; apply account_fields_tag_02;
            split; [discriminate | reflexivity]).
      apply account_fields_tag_02 in H. destruct H as [H _]. congruence.
    + assert (H : In (lit "02", firstn 25 (x1 :: d1))
                    (account_fields (format_cpf cpf2) description2))
        by (rewrite A1; apply account_fields_tag_02;
            split; [discriminate | reflexivity]).
      apply account_fields_tag_02 in H. apply H.
  - apply (top_fields_tag_59 (merchant_info (format_cpf cpf2) description2)
             amt2 _ (firstn 15 city2) (format_X 4 crc2)).
    rewrite <- T2. apply top_fields_tag_59. reflexivity.
  - apply (top_fields_tag_60 (merchant_info (format_cpf cpf2) description2)
             amt2 (firstn 25 name2) _ (format_X 4 crc2)).
    rewrite <- T2. apply top_fields_tag_60. reflexivity.
  - rewrite Hamt1, Hamt2. f_equal.
    destruct amt1 as [s1|].
    + symmetry.
      apply (top_fields_tag_54
               (merchant_info (format_cpf cpf2) description2) amt2
               (firstn 25 name2) (firstn 15 city2) (format_X 4 crc2)).
      rewrite <- T2. apply top_fields_tag_54. reflexivity.
    + destruct amt2 as [s2|]; [|reflexivity].
      assert (H : In (lit "54", s2)
                    (top_fields (merchant_info (format_cpf cpf1) description1)
                       None (firstn 25 name1) (firstn 15 city1)
                       (format_X 4 crc1)))
        by (rewrite T2; apply top_fields_tag_54; reflexivity).
      apply top_fields_tag_54 in H. discriminate H.
Qed.

Lemma same_payload_same_normal_forms_witness :
  generate_pix_payload (lit "131.134.976-63") (PyInt 250) sample_item
    default_merchant_name default_merchant_city = Ok sample_payload
  /\ generate_pix_payload sample_cpf (PyFloat float_250) sample_item
       default_merchant_name default_merchant_city = Ok sample_payload
  /\ format_cpf (lit "131.134.976-63") = format_cpf sample_cpf
  /\ amount_value (PyInt 250) = amount_value (PyFloat float_250).
Proof.
  split; [vm_compute; reflexivity|].
  split; [vm_compute; reflexivity|].
  destruct (same_payload_same_normal_forms
              (lit "131.134.976-63") (PyInt 250) sample_item
              default_merchant_name default_merchant_city
              sample_cpf (PyFloat float_250) sample_item
              default_merchant_name default_merchant_city sample_payload)
    as (Hcpf & _ & _ & _ & Hamt);
    [vm_compute; reflexivity | vm_compute; reflexivity
     | vm_compute; reflexivity | vm_compute; reflexivity |].
  split; [exact Hcpf | exact Hamt].
Defined.

(** ** [generate_pix_payload]: the fixed fields and the sizes *)



Lemma length_desc_field d :
  length (desc_field d)
  = match d with
    | [] => 0%nat
    | _ :: _ => (4 + Nat.min 25 (length d))%nat
    end.
Proof.
  destruct d as [|x d]; [reflexivity|].
  rewrite desc_field_nonempty by discriminate.
  rewrite !length_app, format_d2_length.
  - rewrite length_firstn. reflexivity.
  - unfold len. rewrite length_firstn. lia.
Qed.

(** X11.  The size of the merchant-account-information group: 22
    characters for the GUI sub-field and the header of the key, the
    digits of the key and, for a non-empty description, 4 characters
    and the description cut at 25.  So a key of at most 48 digits makes
    the group fit a two-digit length whatever the description is. *)
Theorem merchant_info_size cpf amount description :
  (length (format_cpf cpf) < 100)%nat ->
  length (merchant_info (format_cpf cpf) description)
  = (22 + length (format_cpf cpf)
     + match description with
       | [] => 0
       | _ :: _ => 4 + Nat.min 25 (length description)
       end)%nat
  /\ ((length (format_cpf cpf) <= 48)%nat ->
      amount_fits amount = true ->
      fits cpf amount description = true).
Proof.
  intros Hk.
  assert (E : length (merchant_info (format_cpf cpf) description)
              = (22 + length (format_cpf cpf)
                 + match description with
                   | [] => 0
                   | _ :: _ => 4 + Nat.min 25 (length description)
                   end)%nat).
  { unfold merchant_info, key_field.
    rewrite !length_app, length_desc_field, format_d2_length
      by (unfold len; lia).
    change (length gui) with 18%nat. change (length (lit "01")) with 2%nat.
    lia. }
  split; [exact E|].
  intros H48 Hamt. unfold fits. rewrite Hamt, andb_true_r.
  apply Nat.ltb_lt. rewrite E. destruct description; lia.
Qed.

Lemma merchant_info_size_witness :
  (length (format_cpf sample_cpf) < 100)%nat
  /\ length (merchant_info (format_cpf sample_cpf) sample_item) = 46%nat.
Proof.
  split; [vm_compute; lia|].
  rewrite (proj1 (merchant_info_size sample_cpf (PyInt 0) sample_item
                    ltac:(vm_compute; lia))).
  reflexivity.
Defined.

Lemma length_render_field f :
  well_sized f -> length (Tlv.render_field f) = (4 + length (Tlv.value f))%nat.
Proof.
  intros [Ht Hv]. unfold Tlv.render_field.
  rewrite !length_app, Ht, format_d2_length by (unfold len; lia). lia.
Qed.

Lemma length_render fs :
  Forall well_sized fs ->
  length (Tlv.render fs)
  = list_sum (map (fun f => 4 + length (Tlv.value f))%nat fs).
Proof.
  induction 1 as [|f fs Hf _ IH]; [reflexivity|].
  change (Tlv.render (f :: fs)) with (Tlv.render_field f ++ Tlv.render fs).
  rewrite length_app, length_render_field, IH by assumption. reflexivity.
Qed.

(** X12.  The length of a returned payload (lengths fitting in two
    digits): 58 characters of tags, lengths, constants and checksum, the
    merchant-account-information group, the amount field when there is
    one, the name cut at 25 and the city cut at 15.  It never exceeds
    300 characters. *)
Theorem payload_length cpf amount description name city P :
  generate_pix_payload cpf amount description name city = Ok P ->
  fits cpf amount description = true ->
  exists amt,
    amount_value amount = Ok amt
    /\ length P
       = (58 + length (merchant_info (format_cpf cpf) description)
          + match amt with
            | Some s => 4 + length s
            | None => 0
            end
          + Nat.min 25 (length name) + Nat.min 15 (length city))%nat
    /\ (length P <= 300)%nat.
Proof.
  intros H Hfits. apply payload_read_back in H.
  destruct H as (amt & crc & Hamt & Hcrc & HP & _).
  destruct (fits_sizes _ _ _ _ Hfits Hamt) as [Hmi Hs].
  exists amt. split; [exact Hamt|].
  assert (E : length P
       = (58 + length (merchant_info (format_cpf cpf) description)
          + match amt with
            | Some s => 4 + length s
            | None => 0
            end
          + Nat.min 25 (length name) + Nat.min 15 (length city))%nat).
  { rewrite HP, length_render
      by (apply top_fields_well_sized; assumption).
    unfold top_fields. rewrite !map_app, !list_sum_app.
    cbn [map list_sum Tlv.value snd].
    rewrite !length_firstn, (proj1 (format_X4_upper_hex crc Hcrc)).
    change (length (lit "01")) with 2%nat.
    change (length (lit "0000")) with 4%nat.
    change (length (lit "986")) with 3%nat.
    change (length (lit "BR")) with 2%nat.
    change (length additional_data) with 7%nat.
    destruct amt as [s|]; cbn [amount_fields map Tlv.value snd];
      unfold list_sum; cbn [fold_right]; lia. }
  split; [exact E|].
  rewrite E. destruct amt as [s|]; [specialize (Hs s eq_refl)|]; lia.
Qed.

Lemma payload_length_witness :
  generate_pix_payload sample_cpf (PyFloat float_250) sample_item
    default_merchant_name default_merchant_city = Ok sample_payload
  /\ fits sample_cpf (PyFloat float_250) sample_item = true
  /\ (length sample_payload <= 300)%nat.
Proof.
  split; [vm_compute; reflexivity|].
  split; [vm_compute; reflexivity|].
  destruct (payload_length sample_cpf (PyFloat float_250) sample_item
              default_merchant_name default_merchant_city sample_payload)
    as (amt & _ & _ & H);
    [vm_compute; reflexivity | vm_compute; reflexivity |].
  exact H.
Defined.

Lemma filter_none {A} (f : A -> bool) (l : list A) :
  Forall (fun a => f a = false) l -> filter f l = [].
Proof.
  induction 1 as [|a l Ha _ IH]; [reflexivity|].
  cbn [filter]. rewrite Ha. exact IH.
Qed.

(** X13.  The key is not validated: a key without any digit (an empty
    one, or text only) is normalised to the empty string and the payload
    is returned all the same, its key sub-field being ["0100"], length 0
    and no value. *)
Theorem key_without_digits_is_accepted
    cpf amount description name city amt :
  Forall (fun c => str_isdigit c = false) cpf ->
  amount_value amount = Ok amt ->
  encodable (firstn 25 description) -> encodable (firstn 25 name) ->
  encodable (firstn 15 city) ->
  format_cpf cpf = []
  /\ merchant_info (format_cpf cpf) description
     = lit "0014BR.GOV.BCB.PIX0100" ++ desc_field description
  /\ exists P,
       generate_pix_payload cpf amount description name city = Ok P
       /\ has_infix (lit "0014BR.GOV.BCB.PIX0100") P = true.
Proof.
  intros Hcpf Hamt Hd Hn Hc.
  assert (E : format_cpf cpf = []) by (apply filter_none, Hcpf).
  assert (Emi : merchant_info (format_cpf cpf) description
                = lit "0014BR.GOV.BCB.PIX0100" ++ desc_field description)
    by (rewrite E; reflexivity).
  split; [exact E|]. split; [exact Emi|].
  destruct (returns_with_truncated cpf amount description name city amt
              Hamt Hd Hn Hc) as [P HP].
  exists P. split; [exact HP|].
  apply payload_read_back in HP.
  destruct HP as (amt' & crc & _ & _ & HP & _).
  assert (Hin : has_infix
                  (Tlv.render_field
                     (lit "26", merchant_info (format_cpf cpf) description))
                  P = true).
  { rewrite HP. apply has_infix_render.
    apply top_fields_tag_26. reflexivity. }
  apply has_infix_sound in Hin. destruct Hin as (a & b & ->).
  unfold Tlv.render_field, Tlv.tag, Tlv.value. cbn [fst snd].
  rewrite Emi.
  replace (a ++ (lit "26" ++ format_d 2 (len (lit "0014BR.GOV.BCB.PIX0100"
                                               ++ desc_field description))
                   ++ lit "0014BR.GOV.BCB.PIX0100" ++ desc_field description)
             ++ b)
    with ((a ++ lit "26"
             ++ format_d 2 (len (lit "0014BR.GOV.BCB.PIX0100"
                                   ++ desc_field description)))
            ++ lit "0014BR.GOV.BCB.PIX0100"
            ++ (desc_field description ++ b))
    by (repeat rewrite <- app_assoc; reflexivity).
  apply has_infix_complete.
Qed.

Lemma key_without_digits_is_accepted_witness :
  Forall (fun c => str_isdigit c = false) (lit "n/a")
  /\ exists P,
       generate_pix_payload (lit "n/a") (PyInt 0) [] [] [] = Ok P
       /\ has_infix (lit "0014BR.GOV.BCB.PIX0100") P = true.
Proof.
  assert (H : Forall (fun c => str_isdigit c = false) (lit "n/a"))
    by (repeat (apply Forall_cons; [reflexivity|]); apply Forall_nil).
  split; [exact H|].
  apply (key_without_digits_is_accepted (lit "n/a") (PyInt 0) [] [] [] None);
    [exact H | reflexivity | constructor | constructor | constructor].
Defined.

(** ** [generate_qr_code_base64]: the data URI *)

Lemma b64_index_char i : 0 <= i < 64 -> b64_index (b64_char i) = Some i.
Proof.
  intros Hi. unfold b64_char, b64_index.
  destruct (Z.ltb_spec i 26).
  { replace ((65 <=? 65 + i) && (65 + i <=? 90)) with true
      by (symmetry; apply andb_true_iff; lia).
    f_equal. lia. }
  destruct (Z.ltb_spec i 52).
  { replace ((65 <=? 71 + i) && (71 + i <=? 90)) with false
      by (symmetry; apply andb_false_iff; lia).
    replace ((97 <=? 71 + i) && (71 + i <=? 122)) with true
      by (symmetry; apply andb_true_iff; lia).
    f_equal. lia. }
  destruct (Z.ltb_spec i 62).
  { replace ((65 <=? i - 4) && (i - 4 <=? 90)) with false
      by (symmetry; apply andb_false_iff; lia).
    replace ((97 <=? i - 4) && (i - 4 <=? 122)) with false
      by (symmetry; apply andb_false_iff; lia).
    replace ((48 <=? i - 4) && (i - 4 <=? 57)) with true
      by (symmetry; apply andb_true_iff; lia).
    f_equal. lia. }
  destruct (Z.eqb_spec i 62) as [->|Hne]; [reflexivity|].
  assert (i = 63) by lia. subst i. reflexivity.
Qed.

Lemma b64_char_range i :
  0 <= i < 64 -> 0 <= b64_char i < 128 /\ (b64_char i =? 61) = false.
Proof.
  intros Hi. unfold b64_char.
  destruct (Z.ltb_spec i 26); [split; [lia | apply Z.eqb_neq; lia]|].
  destruct (Z.ltb_spec i 52); [split; [lia | apply Z.eqb_neq; lia]|].
  destruct (Z.ltb_spec i 62); [split; [lia | apply Z.eqb_neq; lia]|].
  destruct (i =? 62); split; try lia; reflexivity.
Qed.

Lemma list_ind3 {A} (P : list A -> Prop) :
  P [] -> (forall a, P [a]) -> (forall a b, P [a; b]) ->
  (forall a b c rest, P rest -> P (a :: b :: c :: rest)) ->
  forall l, P l.
Proof.
  intros H0 H1 H2 H3 l.
  assert (H : forall n l, (length l <= n)%nat -> P l).
  { induction n as [|n IH]; intros l' Hl.
    - destruct l'; [exact H0 | simpl in Hl; lia].
    - destruct l' as [|a [|b [|c rest]]];
        [exact H0 | apply H1 | apply H2 |].
      apply H3, IH. simpl in Hl. lia. }
  apply (H (length l)). lia.
Qed.

Lemma b64encode_cons3 a b c rest :
  b64encode (a :: b :: c :: rest) =
  b64_char (a / 4) :: b64_char (a mod 4 * 16 + b / 16)
    :: b64_char (b mod 16 * 4 + c / 64) :: b64_char (c mod 64)
    :: b64encode rest.
Proof. reflexivity. Qed.

Lemma b64decode_cons4 c0 c1 c2 c3 rest i0 i1 i2 i3 bs :
  b64_index c0 = Some i0 -> b64_index c1 = Some i1 ->
  b64_index c2 = Some i2 -> b64_index c3 = Some i3 ->
  (c2 =? 61) = false -> (c3 =? 61) = false ->
  b64decode rest = Some bs ->
  b64decode (c0 :: c1 :: c2 :: c3 :: rest) =
  Some ((i0 * 4 + i1 / 16) :: (i1 mod 16 * 16 + i2 / 4)
          :: (i2 mod 4 * 64 + i3) :: bs).
Proof.
  intros H0 H1 H2 H3 P2 P3 Hr. cbn [b64decode].
  rewrite H0, H1, P2, H2, P3, H3, Hr. reflexivity.
Qed.

(** What [b64encode] writes is read back as the same bytes. *)
Lemma b64decode_encode bs :
  Forall is_byte bs -> b64decode (b64encode bs) = Some bs.
Proof.
  unfold is_byte. induction bs as [|a|a b|a b c rest IH] using list_ind3;
    intros H.
  - reflexivity.
  - apply Forall_cons_iff in H. destruct H as [Ha _].
    cbn [b64encode b64decode].
    rewrite !b64_index_char by zdiv.
    change (61 =? 61) with true. cbv iota zeta. f_equal. f_equal. zdiv.
  - apply Forall_cons_iff in H. destruct H as [Ha H].
    apply Forall_cons_iff in H. destruct H as [Hb _].
    cbn [b64encode b64decode].
    rewrite !b64_index_char by zdiv.
    rewrite (proj2 (b64_char_range (b mod 16 * 4) ltac:(zdiv))).
    change (61 =? 61) with true. cbv iota zeta.
    f_equal. f_equal; [zdiv|]. f_equal. zdiv.
  - apply Forall_cons_iff in H. destruct H as [Ha H].
    apply Forall_cons_iff in H. destruct H as [Hb H].
    apply Forall_cons_iff in H. destruct H as [Hc H].
    rewrite b64encode_cons3.
    rewrite (b64decode_cons4 _ _ _ _ _
               (a / 4) (a mod 4 * 16 + b / 16)
               (b mod 16 * 4 + c / 64) (c mod 64) rest);
      try (apply b64_index_char; zdiv);
      try (apply b64_char_range; zdiv);
      [|apply IH, H].
    f_equal. f_equal; [zdiv|]. f_equal; [zdiv|]. f_equal. zdiv.
Qed.

Lemma b64encode_length bs :
  length (b64encode bs) = (4 * ((length bs + 2) / 3))%nat.
Proof.
  induction bs as [|a|a b|a b c rest IH] using list_ind3;
    try reflexivity.
  rewrite b64encode_cons3. cbn [length]. rewrite IH.
  replace (S (S (S (length rest))) + 2)%nat
    with (1 * 3 + (length rest + 2))%nat by lia.
  rewrite Nat.div_add_l by lia. lia.
Qed.

Lemma b64encode_ascii bs : Forall is_byte bs -> is_ascii (b64encode bs).
Proof.
  unfold is_byte, is_ascii.
  induction bs as [|a|a b|a b c rest IH] using list_ind3; intros H.
  - constructor.
  - apply Forall_cons_iff in H. destruct H as [Ha _]. cbn [b64encode].
    repeat (apply Forall_cons; [try lia; apply b64_char_range; zdiv|]).
    apply Forall_nil.
  - apply Forall_cons_iff in H. destruct H as [Ha H].
    apply Forall_cons_iff in H. destruct H as [Hb _]. cbn [b64encode].
    repeat (apply Forall_cons; [try lia; apply b64_char_range; zdiv|]).
    apply Forall_nil.
  - apply Forall_cons_iff in H. destruct H as [Ha H].
    apply Forall_cons_iff in H. destruct H as [Hb H].
    apply Forall_cons_iff in H. destruct H as [Hc H].
    rewrite b64encode_cons3.
    apply Forall_cons; [apply b64_char_range; zdiv|].
    apply Forall_cons; [apply b64_char_range; zdiv|].
    apply Forall_cons; [apply b64_char_range; zdiv|].
    apply Forall_cons; [apply b64_char_range; zdiv|].
    apply IH, H.
Qed.

(** X14.  When [generate_qr_code_base64] returns, its result is the text
    ["data:image/png;base64,"] followed by the base64 text of the image:
    taking the 22 characters of the prefix away and reading the rest as
    base64 gives the bytes of the image back.  The result is ASCII and
    has 22 characters plus four for every three bytes of the image,
    rounded up. *)
Theorem data_uri_round_trip
    (qr_error : Type) (qr_png : pystr -> outcome qr_error pybytes)
    payload uri :
  generate_qr_code_base64 qr_png payload = Returned uri ->
  (forall png, qr_png payload = Returned png -> Forall is_byte png) ->
  exists png,
    qr_png payload = Returned png
    /\ uri = data_uri_prefix ++ b64encode png
    /\ b64decode (skipn 22 uri) = Some png
    /\ length uri = (22 + 4 * ((length png + 2) / 3))%nat
    /\ is_ascii uri.
Proof.
  unfold generate_qr_code_base64. intros H Hbytes.
  destruct (qr_png payload) as [png|e] eqn:E; [|discriminate H].
  cbv zeta in H. assert (Huri : uri = data_uri_prefix ++ b64encode png)
    by congruence.
  specialize (Hbytes png eq_refl).
  exists png. split; [reflexivity|]. split; [exact Huri|].
  rewrite Huri. split; [|split].
  - change 22%nat with (length data_uri_prefix).
    rewrite skipn_app, Nat.sub_diag, skipn_all, skipn_O.
    apply b64decode_encode, Hbytes.
  - rewrite length_app, b64encode_length. reflexivity.
  - apply is_ascii_app; [apply is_ascii_forallb; reflexivity|].
    apply b64encode_ascii, Hbytes.
Qed.

Lemma data_uri_round_trip_witness :
  generate_qr_code_base64 constant_png sample_payload
    = Returned (lit "data:image/png;base64,iVBORw0KGgo=")
  /\ b64decode (skipn 22 (lit "data:image/png;base64,iVBORw0KGgo="))
     = Some png_signature.
Proof.
  split; [vm_compute; reflexivity|].
  destruct (data_uri_round_trip Empty_set constant_png sample_payload
              (lit "data:image/png;base64,iVBORw0KGgo="))
    as (png & Hpng & _ & Hdec & _).
  - vm_compute. reflexivity.
  - intros png Hpng. unfold constant_png in Hpng.
    assert (png = png_signature) by congruence. subst png.
    unfold is_byte, png_signature.
    repeat (apply Forall_cons; [lia|]). apply Forall_nil.
  - unfold constant_png in Hpng.
    assert (png = png_signature) by congruence. subst png. exact Hdec.
Defined.

(** ** [generate_pix_data] *)

(** X15.  When [generate_pix_data] returns, its dictionary has the keys
    payload, qr_code, amount, cpf and item_name, in this order.  The
    payload is the one of [generate_pix_payload] for the key, the amount
    and the item name as description, with the default merchant name and
    city; the QR code is made from that very payload.  The entries cpf
    and item_name are the arguments as given, while the payload carries
    their normal forms: the digits of the key, and the first 25
    characters of the item name, or no description sub-field when the
    item name is empty (the default description is not used). *)
Theorem generate_pix_data_bundle
    (qr_error : Type) (qr_png : pystr -> outcome qr_error pybytes)
    cpf amount item_name d :
  generate_pix_data qr_png cpf amount item_name = Returned d ->
  exists P uri top account,
    generate_pix_payload cpf amount item_name
      default_merchant_name default_merchant_city = Ok P
    /\ generate_qr_code_base64 qr_png P = Returned uri
    /\ map fst d = ["payload"; "qr_code"; "amount"; "cpf"; "item_name"]%string
    /\ dict_get "payload" d = Some (PyStr P)
    /\ dict_get "qr_code" d = Some (PyStr uri)
    /\ dict_get "amount" d = Some amount
    /\ dict_get "cpf" d = Some (PyStr cpf)
    /\ dict_get "item_name" d = Some (PyStr item_name)
    /\ P = Tlv.render top
    /\ In (lit "26", Tlv.render account) top
    /\ In (lit "59", lit "Lista de Presentes") top
    /\ In (lit "60", lit "SAO PAULO") top
    /\ In (lit "01", format_cpf cpf) account
    /\ (forall v, In (lit "02", v) account <->
                  item_name <> [] /\ v = firstn 25 item_name).
Proof.
  unfold generate_pix_data. intros H.
  destruct (generate_pix_payload cpf amount item_name default_merchant_name
              default_merchant_city) as [P|e] eqn:HP; [|discriminate H].
  destruct (generate_qr_code_base64 qr_png P) as [uri|e] eqn:Huri;
    [|discriminate H].
  assert (Hd : d = [("payload"%string, PyStr P);
                    ("qr_code"%string, PyStr uri);
                    ("amount"%string, amount);
                    ("cpf"%string, PyStr cpf);
                    ("item_name"%string, PyStr item_name)])
    by congruence.
  clear H. subst d.
  pose proof (payload_read_back _ _ _ _ _ _ HP)
    as (amt & crc & _ & _ & Hrender & _).
  exists P, uri,
    (top_fields (merchant_info (format_cpf cpf) item_name) amt
       (firstn 25 default_merchant_name) (firstn 15 default_merchant_city)
       (format_X 4 crc)),
    (account_fields (format_cpf cpf) item_name).
  rewrite <- merchant_info_render.
  split; [reflexivity|]. split; [exact Huri|].
  split; [reflexivity|]. split; [reflexivity|]. split; [reflexivity|].
  split; [reflexivity|]. split; [reflexivity|]. split; [reflexivity|].
  split; [exact Hrender|].
  split; [apply top_fields_tag_26; reflexivity|].
  split; [apply top_fields_tag_59; vm_compute; reflexivity|].
  split; [apply top_fields_tag_60; vm_compute; reflexivity|].
  split; [apply account_fields_tag_01; reflexivity|].
  intros v. apply account_fields_tag_02.
Qed.

Lemma generate_pix_data_bundle_witness :
  generate_pix_data constant_png (lit "131.134.976-63") (PyFloat float_250)
    sample_item = Returned sample_bundle
  /\ dict_get "cpf" sample_bundle = Some (PyStr (lit "131.134.976-63"))
  /\ exists account, In (lit "01", format_cpf (lit "131.134.976-63")) account.
Proof.
  split; [vm_compute; reflexivity|].
  destruct (generate_pix_data_bundle Empty_set constant_png
              (lit "131.134.976-63") (PyFloat float_250) sample_item
              sample_bundle)
    as (P & uri & top & account & _ & _ & _ & _ & _ & _ & Hcpf & _ & _ & _
        & _ & _ & Hkey & _);
    [vm_compute; reflexivity|].
  split; [exact Hcpf|]. exists account. exact Hkey.
Defined.
